(** * ERM: HTTP API handlers and the paginator widget

    A shallow embedding of [utils/api.py] and [utils/paginator.py].

    Python values that travel as JSON (request bodies, settings documents,
    shift entries) are modelled by [Py.value]; documents whose fields the code
    reads by fixed keys are records.  Handlers run in a state-and-exception
    monad over the bot's stores.  JSON numbers are integers: those with a
    fraction play no part in what is proved here, and the float the handlers
    produce themselves ([int + 2.592e6]) is an integral value, exactly
    representable, so comparisons against it agree with the integer ones.
    The one float computation with a rounding that matters,
    [math.ceil(len(lines) / line_limit)] of the paginator, is modelled with
    its rounding. *)

From Stdlib Require Import ZArith List String Ascii Bool Lia DecimalString.
Import ListNotations.

Open Scope string_scope.
Open Scope Z_scope.

(** ** Python values *)

Module Py.

#[warnings="-register-all"]
Inductive value : Type :=
| VNone
| VBool (b : bool)
| VInt (n : Z)
| VStr (s : string)
| VList (l : list value)
| VDict (d : list (string * value)).

Definition dict := list (string * value).

(** Truth value testing ([if x:], [not x], [x or y]). *)
Definition truthy (v : value) : bool :=
  match v with
  | VNone => false
  | VBool b => b
  | VInt n => negb (n =? 0)
  | VStr s => negb (s =? "")%string
  | VList l => match l with [] => false | _ => true end
  | VDict d => match d with [] => false | _ => true end
  end.

Fixpoint lookup (k : string) (d : dict) : option value :=
  match d with
  | [] => None
  | (k', v) :: d' => if (k =? k')%string then Some v else lookup k d'
  end.

(** [d.get(k)] on a dict: [None] when the key is missing. *)
Definition dict_get (d : dict) (k : string) : value :=
  match lookup k d with Some v => v | None => VNone end.

(** [d[k] = v] on a dict: overwrite in place, or append a new key. *)
Fixpoint dict_set (d : dict) (k : string) (v : value) : dict :=
  match d with
  | [] => [(k, v)]
  | (k', v') :: d' =>
      if (k =? k')%string then (k, v) :: d' else (k', v') :: dict_set d' k v
  end.

(** [d.update(other)]: the receiver is mutated, the call itself evaluates to
    [None]. *)
Definition dict_update (d other : dict) : dict * value :=
  (fold_left (fun acc kv => dict_set acc (fst kv) (snd kv)) other d, VNone).

Definition is_dict (v : value) : bool :=
  match v with VDict _ => true | _ => false end.

(** Python's [==] on JSON values: [True == 1], lists element-wise, dicts as
    unordered maps. *)
Fixpoint eqb (a b : value) {struct a} : bool :=
  match a, b with
  | VNone, VNone => true
  | VBool x, VBool y => Bool.eqb x y
  | VBool x, VInt y => (if x then 1 else 0) =? y
  | VInt x, VBool y => x =? (if y then 1 else 0)
  | VInt x, VInt y => x =? y
  | VStr x, VStr y => (x =? y)%string
  | VList xs, VList ys =>
      (fix go (xs ys : list value) {struct xs} : bool :=
         match xs, ys with
         | [], [] => true
         | x :: xs', y :: ys' => eqb x y && go xs' ys'
         | _, _ => false
         end) xs ys
  | VDict d, VDict e =>
      (Nat.eqb (List.length d) (List.length e)) &&
      (fix go (d : dict) {struct d} : bool :=
         match d with
         | [] => true
         | (k, v) :: d' =>
             match lookup k e with
             | Some w => eqb v w
             | None => false
             end && go d'
         end) d
  | _, _ => false
  end.

(** [x in xs] for a list [xs]. *)
Definition contains (xs : list value) (x : value) : bool :=
  existsb (fun y => eqb y x) xs.

(** Structural identity of two values: what a stored document is matched by. *)
Fixpoint same (a b : value) {struct a} : bool :=
  match a, b with
  | VNone, VNone => true
  | VBool x, VBool y => Bool.eqb x y
  | VInt x, VInt y => x =? y
  | VStr x, VStr y => (x =? y)%string
  | VList xs, VList ys =>
      (fix go (xs ys : list value) {struct xs} : bool :=
         match xs, ys with
         | [], [] => true
         | x :: xs', y :: ys' => same x y && go xs' ys'
         | _, _ => false
         end) xs ys
  | VDict d, VDict e =>
      (fix go (d e : dict) {struct d} : bool :=
         match d, e with
         | [], [] => true
         | (k, v) :: d', (k', v') :: e' =>
             (k =? k')%string && same v v' && go d' e'
         | _, _ => false
         end) d e
  | _, _ => false
  end.

End Py.

Import Py.

(** ** Exceptions and the handler monad *)

Inductive exn : Type :=
| HTTPException (status_code : Z) (detail : string)
| UnboundLocalError (name : string)
| KeyError (key : string)
| AttributeError (attr : string)
| TypeError (what : string)
| ValueError (what : string)
| ZeroDivisionError
| OverflowError.

Inductive result (A : Type) : Type :=
| Ok (a : A)
| Raise (e : exn).
Arguments Ok {A} a.
Arguments Raise {A} e.

(** [x[k]] with a string key. *)
Definition subscript (x : value) (k : string) : result value :=
  match x with
  | VDict d =>
      match lookup k d with
      | Some v => Ok v
      | None => Raise (KeyError k)
      end
  | _ => Raise (TypeError "subscript")
  end.

(** [x.get(k)]: only dicts have the method. *)
Definition get (x : value) (k : string) : result value :=
  match x with
  | VDict d => Ok (dict_get d k)
  | _ => Raise (AttributeError "get")
  end.

(** [for e in x]: the elements the loop visits. *)
Definition iterate (x : value) : result (list value) :=
  match x with
  | VList l => Ok l
  | VDict d => Ok (map (fun kv => VStr (fst kv)) d)
  | VStr s => Ok (map (fun c => VStr (String c EmptyString)) (list_ascii_of_string s))
  | _ => Raise (TypeError "iterate")
  end.

(** ** Data model *)

(** A document of [bot.api_tokens]; [link_string] is only present once the
    token has been authorized. *)
Record TokenDoc : Type := mkTokenDoc {
  tok_id : string;
  token : string;
  created_at : Z;
  expires_at : Z;
  link_string : option string
}.

Record LinkStringDoc : Type := mkLinkStringDoc {
  ls_id : string;
  ls_guild : Z
}.

Record FivemLink : Type := mkFivemLink {
  fl_id : Z;
  license : value;
  steam_id : value
}.

Record Guild : Type := mkGuild {
  guild_id : Z;
  guild_members : list Z
}.

Record Member : Type := mkMember { member_id : Z }.

(** A document of the shift ledger: the member's entries, some of which may
    be [None]. *)
Record ShiftDoc : Type := mkShiftDoc {
  sd_id : Z;
  sd_data : list (option dict)
}.

Record Bot : Type := mkBot {
  api_tokens : list TokenDoc;
  link_strings : list LinkStringDoc;
  fivem_links : list FivemLink;
  settings : list dict;
  guilds : list Guild;
  shifts : list ShiftDoc
}.

(** The two secrets read with [config(...)]. *)
Record Config : Type := mkConfig {
  API_STATIC_TOKEN : string;
  API_PRIVATE_KEY : string
}.

Definition M (A : Type) : Type := Bot -> result A * Bot.

Definition ret {A} (a : A) : M A := fun bot => (Ok a, bot).
Definition raise {A} (e : exn) : M A := fun bot => (Raise e, bot).
Definition bind {A B} (m : M A) (k : A -> M B) : M B :=
  fun bot =>
    match m bot with
    | (Ok a, bot') => k a bot'
    | (Raise e, bot') => (Raise e, bot')
    end.
Definition lift {A} (r : result A) : M A := fun bot => (r, bot).
Definition reads {A} (f : Bot -> A) : M A := fun bot => (Ok (f bot), bot).
Definition modify (f : Bot -> Bot) : M unit := fun bot => (Ok tt, f bot).

Notation "x <- m ;; k" := (bind m (fun x => k))
  (at level 61, m at next level, right associativity).
Notation "m ;;; k" := (bind m (fun _ => k))
  (at level 61, right associativity).

(** [if c: raise e]. *)
Definition raise_if (c : bool) (e : exn) : M unit :=
  if c then raise e else ret tt.

(** ** Store queries *)

(** [api_tokens.db.find_one({"token": t})]: the first document that matches. *)
Definition find_token (t : string) (docs : list TokenDoc) : option TokenDoc :=
  find (fun d => (token d =? t)%string) docs.

(** [api_tokens.find_by_id(host)] and [find_one({"_id": host})]. *)
Definition find_token_by_id (host : string) (docs : list TokenDoc)
  : option TokenDoc :=
  find (fun d => (tok_id d =? host)%string) docs.

(** Modelled from the spec: [Document.upsert] lives in [utils/mongo.py], which
    is not part of the sources; the token is persisted keyed by its [_id],
    replacing the document stored under that key or adding a new one. *)
Fixpoint upsert_token (doc : TokenDoc) (docs : list TokenDoc) : list TokenDoc :=
  match docs with
  | [] => [doc]
  | d :: docs' =>
      if (tok_id d =? tok_id doc)%string then doc :: docs'
      else d :: upsert_token doc docs'
  end.

Definition set_api_tokens (ts : list TokenDoc) (bot : Bot) : Bot :=
  mkBot ts (link_strings bot) (fivem_links bot) (settings bot) (guilds bot)
        (shifts bot).

(** [if not authorization]: the header is [None] or the empty string. *)
Definition header_missing (authorization : option string) : bool :=
  match authorization with
  | None => true
  | Some s => (s =? "")%string
  end.

(** ** [validate_authorization] (api.py, lines 25-38) *)

Definition validate_authorization (cfg : Config) (token_ : string)
    (disable_static_tokens : bool) (now : Z) : M bool :=
  if negb disable_static_tokens && (token_ =? API_STATIC_TOKEN cfg)%string
  then ret true
  else
    token_obj <- reads (fun bot => find_token token_ (api_tokens bot)) ;;
    match token_obj with
    | Some token_obj =>
        if now <? expires_at token_obj then ret true else ret false
    | None => ret false
    end.

(** ** [APIRoutes.GET_get_token] (api.py, lines 212-241)

    [now_check], [now_created] and [now_expiry] are the three readings of the
    clock the handler takes; [generated] is what [tokenGenerator()] returns. *)

Definition GET_get_token (cfg : Config) (authorization : option string)
    (host : string) (generated : string)
    (now_check now_created now_expiry : Z) : M TokenDoc :=
  raise_if (match authorization with
            | Some a => negb (a =? API_PRIVATE_KEY cfg)%string
            | None => true
            end)
           (HTTPException 401 "Invalid authorization") ;;;
  has_token <- reads (fun bot => find_token_by_id host (api_tokens bot)) ;;
  let issue : M TokenDoc :=
    let object := mkTokenDoc host generated now_created
                             (now_expiry + 2592000) None in
    modify (fun bot => set_api_tokens (upsert_token object (api_tokens bot)) bot) ;;;
    ret object in
  match has_token with
  | Some has_token =>
      if negb (now_check >? expires_at has_token) then ret has_token
      else issue
  | None => issue
  end.

(** ** The other stores *)

(** [link_strings.db.find_one({"_id": id})]. *)
Definition find_link_string (id : string) (docs : list LinkStringDoc)
  : option LinkStringDoc :=
  find (fun d => (ls_id d =? id)%string) docs.

(** [fivem_links.db.find_one({field: v})] for the three fields the handlers
    query by. *)
Definition find_fivem_by_license (v : value) (docs : list FivemLink)
  : option FivemLink :=
  find (fun d => same (license d) v) docs.

Definition find_fivem_by_steam_id (v : value) (docs : list FivemLink)
  : option FivemLink :=
  find (fun d => same (steam_id d) v) docs.

Definition find_fivem_by_id (v : value) (docs : list FivemLink)
  : option FivemLink :=
  find (fun d => same (VInt (fl_id d)) v) docs.

(** The link document as the dict the driver hands back. *)
Definition dict_of_fivem_link (l : FivemLink) : dict :=
  [("_id", VInt (fl_id l)); ("license", license l); ("steam_id", steam_id l)].

(** [bot.get_guild(id)]: the guild cache, [None] when the guild is unknown. *)
Definition get_guild (id : Z) (gs : list Guild) : option Guild :=
  find (fun g => guild_id g =? id) gs.

(** [settings.find_by_id(id)]. *)
Definition find_settings (id : value) (docs : list dict) : option dict :=
  find (fun d => same (dict_get d "_id") id) docs.

(** [if not settings] on what [find_by_id] returned. *)
Definition no_document (s : option dict) : bool :=
  match s with
  | Some d => negb (truthy (VDict d))
  | None => true
  end.

(** Modelled from the spec: [Document.update_by_id] lives in [utils/mongo.py],
    which is not part of the sources; the stored document with the same [_id]
    is replaced by the given one, and nothing changes when there is none. *)
Fixpoint update_settings_by_id (s : dict) (docs : list dict) : list dict :=
  match docs with
  | [] => []
  | d :: docs' =>
      if same (dict_get d "_id") (dict_get s "_id") then s :: docs'
      else d :: update_settings_by_id s docs'
  end.

Definition set_settings (ss : list dict) (bot : Bot) : Bot :=
  mkBot (api_tokens bot) (link_strings bot) (fivem_links bot) ss (guilds bot)
        (shifts bot).

Definition set_shifts (ss : list ShiftDoc) (bot : Bot) : Bot :=
  mkBot (api_tokens bot) (link_strings bot) (fivem_links bot) (settings bot)
        (guilds bot) ss.

(** [token_obj["link_string"]]. *)
Definition token_link_string (t : TokenDoc) : result string :=
  match link_string t with
  | Some s => Ok s
  | None => Raise (KeyError "link_string")
  end.

(** The pydantic body of [POST_get_discord] and [POST_duty_on]. *)
Inductive Source : Type := fivem | discord.

Record Identification : Type := mkIdentification {
  id_license : value;
  id_discord : value;
  id_source : Source
}.

(** [x = find(...)] followed by [if not x: raise e]; a document that was
    found is a non-empty dict, hence truthy. *)
Definition require_found {A} (f : Bot -> option A) (e : exn) : M A :=
  fun bot =>
    match f bot with
    | Some a => (Ok a, bot)
    | None => (Raise e, bot)
    end.

(** The same for settings documents, which are plain dicts. *)
Definition require_document (f : Bot -> option dict) (e : exn) : M dict :=
  fun bot =>
    match f bot with
    | Some d => if no_document (Some d) then (Raise e, bot) else (Ok d, bot)
    | None => (Raise e, bot)
    end.

(** The header once [if not authorization] has let it through. *)
Definition header (authorization : option string) : string :=
  match authorization with Some a => a | None => "" end.

(** ** [APIRoutes.POST_get_discord] (api.py, lines 390-422) *)

Definition POST_get_discord (authorization : option string)
    (body : Identification) (now : Z) : M value :=
  raise_if (header_missing authorization)
           (HTTPException 401 "Invalid authorization") ;;;
  token_obj <- require_found
    (fun bot => find_token (header authorization) (api_tokens bot))
    (HTTPException 401 "Invalid authorization") ;;
  raise_if (now >? expires_at token_obj)
           (HTTPException 401 "Invalid authorization") ;;;
  ls <- lift (token_link_string token_obj) ;;
  link_string_obj <- require_found
    (fun bot => find_link_string ls (link_strings bot))
    (HTTPException 401 "Invalid link string") ;;
  raise_if (negb (truthy (id_license body)))
           (HTTPException 400 "Missing license") ;;;
  fivem_link <- reads (fun bot =>
    find_fivem_by_license (id_license body) (fivem_links bot)) ;;
  match fivem_link with
  | Some fivem_link =>
      ret (snd (dict_update [("status", VStr "success")]
                            (dict_of_fivem_link fivem_link)))
  | None => ret (VDict [("status", VStr "failed")])
  end.

(** ** [APIRoutes.POST_get_fivem] (api.py, lines 424-454);
    [json] is what [await request.json()] yields. *)

Definition POST_get_fivem (authorization : option string) (json : value)
    (now : Z) : M value :=
  raise_if (header_missing authorization)
           (HTTPException 401 "Invalid authorization") ;;;
  token_obj <- require_found
    (fun bot => find_token (header authorization) (api_tokens bot))
    (HTTPException 401 "Invalid authorization") ;;
  raise_if (now >? expires_at token_obj)
           (HTTPException 401 "Invalid authorization") ;;;
  ls <- lift (token_link_string token_obj) ;;
  link_string_obj <- require_found
    (fun bot => find_link_string ls (link_strings bot))
    (HTTPException 401 "Invalid link string") ;;
  let body := json in
  raise_if (negb (truthy body)) (HTTPException 400 "Missing discord_id") ;;;
  discord_id <- lift (get body "discord_id") ;;
  raise_if (negb (truthy discord_id))
           (HTTPException 400 "Missing discord_id") ;;;
  discord_id <- lift (subscript body "discord_id") ;;
  fivem_link <- reads (fun bot =>
    find_fivem_by_id discord_id (fivem_links bot)) ;;
  match fivem_link with
  | Some fivem_link =>
      ret (snd (dict_update [("status", VStr "success")]
                            (dict_of_fivem_link fivem_link)))
  | None => ret (VDict [("status", VStr "failed")])
  end.

(** ** [APIRoutes.POST_update_guild_settings] (api.py, lines 172-194) *)

(** What the handler hands back: a settings document, or an [HTTPException]
    object that is returned, not raised. *)
Inductive Returned : Type :=
| ReturnedSettings (s : dict)
| ReturnedHTTPException (status_code : Z) (detail : string).

(** [for k, v in value.items(): settings[key][k] = v]. *)
Fixpoint assign_nested (settings_ : dict) (key : string) (items : dict)
  : result dict :=
  match items with
  | [] => Ok settings_
  | (k, v) :: items' =>
      match subscript (VDict settings_) key with
      | Raise e => Raise e
      | Ok (VDict inner) =>
          assign_nested (dict_set settings_ key (VDict (dict_set inner k v)))
                        key items'
      | Ok _ => Raise (TypeError "item assignment")
      end
  end.

(** The loop over [json_data.items()].  [settings_] is the local variable
    [settings], [None] while it is unbound; [inl] is an early [return]. *)
Fixpoint update_loop (guild_id_ : value) (items : dict)
    (settings_ : option dict) : M (Returned + option dict) :=
  match items with
  | [] => ret (inr settings_)
  | (key, value_) :: items' =>
      if (key =? "guild")%string then update_loop guild_id_ items' settings_
      else
        match value_ with
        | VDict value_items =>
            found <- reads (fun bot => find_settings guild_id_ (settings bot)) ;;
            match found with
            | Some s =>
                if no_document found
                then ret (inl (ReturnedHTTPException 400 "Invalid guild"))
                else
                  s' <- lift (assign_nested s key value_items) ;;
                  update_loop guild_id_ items' (Some s')
            | None => ret (inl (ReturnedHTTPException 400 "Invalid guild"))
            end
        | _ => update_loop guild_id_ items' settings_
        end
  end.

(** [int(x)] on a JSON value; [parse_int] is the builtin's reading of a
    string. *)
Definition py_int (parse_int : string -> option Z) (x : value) : result Z :=
  match x with
  | VInt n => Ok n
  | VBool b => Ok (if b then 1 else 0)
  | VStr s =>
      match parse_int s with
      | Some n => Ok n
      | None => Raise (ValueError "int")
      end
  | _ => Raise (TypeError "int")
  end.

Definition POST_update_guild_settings (parse_int : string -> option Z)
    (json_data : value) : M Returned :=
  guild_id_ <- lift (get json_data "guild") ;;
  items <- lift (match json_data with
                 | VDict d => Ok d
                 | _ => Raise (AttributeError "items")
                 end) ;;
  looped <- update_loop guild_id_ items None ;;
  match looped with
  | inl early => ret early
  | inr settings_ =>
      match settings_ with
      | None => raise (UnboundLocalError "settings")
      | Some s =>
          modify (fun bot =>
            set_settings (update_settings_by_id s (settings bot)) bot) ;;;
          if negb (truthy guild_id_)
          then ret (ReturnedHTTPException 400 "Invalid guild")
          else
            n <- lift (py_int parse_int guild_id_) ;;
            guild <- reads (fun bot => get_guild n (guilds bot)) ;;
            match guild with
            | None => raise (AttributeError "id")
            | Some guild =>
                found <- reads (fun bot =>
                  find_settings (VInt (guild_id guild)) (settings bot)) ;;
                match found with
                | Some s' =>
                    if no_document found
                    then ret (ReturnedHTTPException 404
                                "Guild does not have settings attribute")
                    else ret (ReturnedSettings s')
                | None => ret (ReturnedHTTPException 404
                                 "Guild does not have settings attribute")
                end
            end
      end
  end.

(** ** The shift ledger *)

(** [shift_management.shifts.find_by_id(member.id)]. *)
Definition find_shifts (mid : Z) (docs : list ShiftDoc) : option ShiftDoc :=
  find (fun d => sd_id d =? mid) docs.

(** The filter of [POST_duty_off]:
    [lambda x: (x or {}).get("guild") == guild.id]. *)
Definition entry_guild_is (gid : Z) (x : option dict) : bool :=
  let x_or_empty :=
    match x with
    | Some d => if truthy (VDict d) then d else []
    | None => []
    end in
  eqb (dict_get x_or_empty "guild") (VInt gid).

Definition same_entry (x y : option dict) : bool :=
  match x, y with
  | None, None => true
  | Some d, Some e => same (VDict d) (VDict e)
  | _, _ => false
  end.

(** The entry a duty-on opens: the guild, and the shift type when one was
    requested. *)
Definition shift_entry (g : Guild) (shift_type : option value) : dict :=
  ("guild", VInt (guild_id g)) ::
  match shift_type with
  | Some t => [("shift_type", t)]
  | None => []
  end.

(** Modelled from the spec: [ShiftManagement.add_shift_by_user] belongs to the
    bot and is not part of the sources; it opens a shift record for the
    member, adding the entry to the member's document and creating the
    document when the member has none. *)
Fixpoint open_shift (mid : Z) (entry : dict) (docs : list ShiftDoc)
  : list ShiftDoc :=
  match docs with
  | [] => [mkShiftDoc mid [Some entry]]
  | d :: docs' =>
      if sd_id d =? mid
      then mkShiftDoc (sd_id d) (sd_data d ++ [Some entry]) :: docs'
      else d :: open_shift mid entry docs'
  end.

Definition add_shift_by_user (member : Member) (g : Guild)
    (shift_type : option value) : M unit :=
  modify (fun bot =>
    set_shifts (open_shift (member_id member) (shift_entry g shift_type)
                           (shifts bot)) bot).

Fixpoint remove_first (s : option dict) (data : list (option dict))
  : list (option dict) :=
  match data with
  | [] => []
  | x :: data' => if same_entry x s then data' else x :: remove_first s data'
  end.

(** Modelled from the spec: [ShiftManagement.remove_shift_by_user] belongs to
    the bot and is not part of the sources; it closes the given shift of the
    member, taking that entry out of the member's document. *)
Fixpoint close_shift (mid : Z) (s : option dict) (docs : list ShiftDoc)
  : list ShiftDoc :=
  match docs with
  | [] => []
  | d :: docs' =>
      if sd_id d =? mid
      then mkShiftDoc (sd_id d) (remove_first s (sd_data d)) :: docs'
      else d :: close_shift mid s docs'
  end.

Definition remove_shift_by_user (member : Member) (g : Guild)
    (shift : option dict) : M unit :=
  modify (fun bot =>
    set_shifts (close_shift (member_id member) shift (shifts bot)) bot).

(** [guild.fetch_member(id)] inside [try: ... except discord.NotFound:
    raise HTTPException(404, ...)]. *)
Definition fetch_member (g : Guild) (uid : Z) : M Member :=
  if existsb (Z.eqb uid) (guild_members g)
  then ret (mkMember uid)
  else raise (HTTPException 404 "Could not find Discord member").

(** ** [APIRoutes.POST_duty_on] (api.py, lines 456-534) *)

(** [available_shift_types.append(shift_type["id"])] over the elements. *)
Fixpoint shift_type_ids (elems : list value) : result (list value) :=
  match elems with
  | [] => Ok []
  | shift_type :: elems' =>
      match subscript shift_type "id" with
      | Raise e => Raise e
      | Ok i =>
          match shift_type_ids elems' with
          | Raise e => Raise e
          | Ok ids => Ok (i :: ids)
          end
      end
  end.

(** Lines 516-519: the local [available_shift_types], [None] when the [if]
    was not entered and the name is still unbound. *)
Definition collect_shift_types (settings_ : dict)
  : result (option (list value)) :=
  if truthy (dict_get settings_ "shift_types") then
    match iterate (dict_get settings_ "shift_types") with
    | Raise e => Raise e
    | Ok elems =>
        match shift_type_ids elems with
        | Raise e => Raise e
        | Ok ids => Ok (Some ids)
        end
    end
  else Ok None.

Definition POST_duty_on (authorization : option string)
    (identification : Identification) (json : value) (now : Z) : M value :=
  raise_if (header_missing authorization)
           (HTTPException 401 "Invalid authorization") ;;;
  token_obj <- require_found
    (fun bot => find_token (header authorization) (api_tokens bot))
    (HTTPException 401 "Invalid authorization") ;;
  raise_if (now >? expires_at token_obj)
           (HTTPException 401 "Invalid authorization") ;;;
  ls <- lift (token_link_string token_obj) ;;
  link_string_obj <- require_found
    (fun bot => find_link_string ls (link_strings bot))
    (HTTPException 401 "Invalid link string") ;;
  guild <- require_found
    (fun bot => get_guild (ls_guild link_string_obj) (guilds bot))
    (HTTPException 404 "Guild not found") ;;
  let body := json in
  raise_if (negb (truthy body)) (HTTPException 400 "No body provided") ;;;
  sid <- lift (get body "steam_id") ;;
  raise_if (negb (truthy sid)) (HTTPException 400 "No steam ID provided") ;;;
  sid <- lift (subscript body "steam_id") ;;
  fivem_link <- require_found
    (fun bot => find_fivem_by_steam_id sid (fivem_links bot))
    (HTTPException 404 "Could not find FiveM link") ;;
  raise_if (fl_id fivem_link =? 0)
           (HTTPException 404 "Could not find FiveM link") ;;;
  member <- fetch_member guild (fl_id fivem_link) ;;
  settings_ <- require_document
    (fun bot => find_settings (VInt (guild_id guild)) (settings bot))
    (HTTPException 404 "Could not find settings") ;;
  available_shift_types <- lift (collect_shift_types settings_) ;;
  requested <- lift (get body "shift_type") ;;
  (if negb (truthy requested)
   then add_shift_by_user member guild None
   else
     requested <- lift (subscript body "shift_type") ;;
     match available_shift_types with
     | None => raise (UnboundLocalError "available_shift_types")
     | Some available =>
         raise_if (negb (contains available requested))
                  (HTTPException 400 "Invalid shift type") ;;;
         add_shift_by_user member guild (Some requested)
     end) ;;;
  shift_type <- lift (get body "shift_type") ;;
  ret (VDict [("status", VStr "success");
              ("member", VInt (member_id member));
              ("shift_type", shift_type)]).

(** ** [APIRoutes.POST_duty_off] (api.py, lines 536-609) *)

(** The local [guild]: a guild object from the cache, or whatever JSON value
    the body carried (which includes [None] from a cache miss). *)
Inductive GuildVar : Type :=
| GuildObj (g : Guild)
| GuildJson (v : value).

Definition guild_truthy (g : GuildVar) : bool :=
  match g with
  | GuildObj _ => true
  | GuildJson v => truthy v
  end.

Definition POST_duty_off (cfg : Config) (authorization : option string)
    (json : value) (now : Z) : M unit :=
  raise_if (header_missing authorization)
           (HTTPException 401 "Invalid authorization") ;;;
  valid <- validate_authorization cfg (header authorization) false now ;;
  raise_if (negb valid)
           (HTTPException 401 "Invalid or expired authorization.") ;;;
  token_obj <- reads (fun bot =>
    find_token (header authorization) (api_tokens bot)) ;;
  guild <-
    match token_obj with
    | Some token_obj =>
        ls <- lift (token_link_string token_obj) ;;
        link_string_obj <- require_found
          (fun bot => find_link_string ls (link_strings bot))
          (HTTPException 401 "Invalid link string") ;;
        g <- reads (fun bot => get_guild (ls_guild link_string_obj) (guilds bot)) ;;
        ret (match g with Some g => GuildObj g | None => GuildJson VNone end)
    | None =>
        let data := json in
        g <- lift (subscript data "guild") ;;
        ret (GuildJson g)
    end ;;
  raise_if (negb (guild_truthy guild)) (HTTPException 404 "Guild not found") ;;;
  let body := json in
  raise_if (negb (truthy body)) (HTTPException 400 "No body provided") ;;;
  (* [fivem_link] is only assigned under [if token_obj:] *)
  fivem_link <-
    match token_obj with
    | Some _ =>
        sid <- lift (get body "steam_id") ;;
        raise_if (negb (truthy sid))
                 (HTTPException 400 "No steam ID provided") ;;;
        sid <- lift (subscript body "steam_id") ;;
        fivem_link <- require_found
          (fun bot => find_fivem_by_steam_id sid (fivem_links bot))
          (HTTPException 404 "Could not find FiveM link") ;;
        raise_if (fl_id fivem_link =? 0)
                 (HTTPException 404 "Could not find FiveM link") ;;;
        ret (Some fivem_link)
    | None => ret None
    end ;;
  (* [guild.fetch_member(fivem_link["_id"])]: the attribute is looked up
     first, then the argument is evaluated *)
  resolved <-
    match guild with
    | GuildJson _ => raise (AttributeError "fetch_member")
    | GuildObj g =>
        match fivem_link with
        | None => raise (UnboundLocalError "fivem_link")
        | Some fivem_link =>
            member <- fetch_member g (fl_id fivem_link) ;;
            ret (g, member)
        end
    end ;;
  let '(guild, member) := resolved in
  settings_ <- require_document
    (fun bot => find_settings (VInt (guild_id guild)) (settings bot))
    (HTTPException 404 "Could not find settings") ;;
  shifts_ <- require_found
    (fun bot => find_shifts (member_id member) (shifts bot))
    (HTTPException 404 "Could not find user shifts") ;;
  let associated_shift :=
    filter (entry_guild_is (guild_id guild)) (sd_data shifts_) in
  match associated_shift with
  | [] => raise (HTTPException 404 "Could not find user shifts")
  | associated_shift :: _ =>
      remove_shift_by_user member guild associated_shift
  end.

(** ** [Paginator] (paginator.py, lines 13-64) *)

Module Paginator.

(** The view: [E] is what the callback produces for a page. *)
Record t (E : Type) : Type := mk {
  pages : Z;
  callback : Z -> E;
  page : Z;
  prev_disabled : bool;
  next_disabled : bool
}.
Arguments mk {E}.
Arguments pages {E}.
Arguments callback {E}.
Arguments page {E}.
Arguments prev_disabled {E}.
Arguments next_disabled {E}.

(** What [interaction.response.edit_message(embeds=[embs], view=self)] is
    given to display. *)
Record Edit (E : Type) : Type := mkEdit { embeds : list E }.
Arguments mkEdit {E}.
Arguments embeds {E}.

Section View.
Context {E : Type}.

Definition _update_buttons (self : t E) : t E :=
  mk (pages self) (callback self) (page self)
     (page self <=? 1) (page self >=? pages self).

Definition __init__ (callback_ : Z -> E) (pages_ : Z) : t E :=
  _update_buttons (mk pages_ callback_ 1 false false).

Definition get_page (self : t E) (page_ : Z) : E := callback self page_.

Definition set_page (self : t E) (page_ : Z) : t E :=
  mk (pages self) (callback self) page_ (prev_disabled self)
     (next_disabled self).

Definition prev_button (self : t E) : t E * Edit E :=
  let self := set_page self (Z.max (page self - 1) 1) in
  let self := _update_buttons self in
  let embs := callback self (page self) in
  (self, mkEdit [embs]).

Definition next_button (self : t E) : t E * Edit E :=
  let self := set_page self (Z.min (page self + 1) (pages self)) in
  let self := _update_buttons self in
  let embs := callback self (page self) in
  (self, mkEdit [embs]).

(** A button press, and a sequence of them fired in order. *)
Inductive Button : Type := Back | Next.

Definition press (self : t E) (b : Button) : t E :=
  match b with
  | Back => fst (prev_button self)
  | Next => fst (next_button self)
  end.

Definition presses (self : t E) (bs : list Button) : t E :=
  fold_left press bs self.

End View.

End Paginator.

(** ** [StaticPaginator] (paginator.py, lines 67-107) *)

Module StaticPaginator.

(** The part of [discord.Embed] the paginator touches: the description it
    replaces, and the title as a field the copy keeps. *)
Record Embed : Type := mkEmbed {
  title : option string;
  description : option string
}.

Definition empty_embed : Embed := mkEmbed None None.

Definition newline : string := String (ascii_of_nat 10) EmptyString.

(** ["\n".join(xs)]. *)
Definition join_lines (xs : list string) : string := String.concat newline xs.

(** A finite binary64 value, [mantissa * 2 ^ exponent]. *)
Record Double : Type := mkDouble { mantissa : Z; exponent : Z }.

(** The fraction [n / d] divided by [2 ^ k], again as a fraction. *)
Definition scaled (n d k : Z) : Z * Z :=
  if 0 <=? k then (n, d * 2 ^ k) else (n * 2 ^ (- k), d).

(** The integer part of the binary logarithm of [n / d], for positive [n]
    and [d]. *)
Definition floor_log2 (n d : Z) : Z :=
  let k := Z.log2 n - Z.log2 d in
  let (n', d') := scaled n d k in
  if d' <=? n' then k else k - 1.

(** The integer nearest to [n / d], a tie going to the even one. *)
Definition round_half_even (n d : Z) : Z :=
  let q := n / d in
  let r := n mod d in
  if 2 * r <? d then q
  else if d <? 2 * r then q + 1
  else if Z.even q then q else q + 1.

(** The double nearest to [n / d] for positive [n] and [d]: 53 significant
    bits, and no exponent below that of the subnormals. *)
Definition round_to_double (n d : Z) : Z * Z :=
  let e := Z.max (floor_log2 n d - 52) (-1074) in
  let (n', d') := scaled n d e in
  (round_half_even n' d', e).

(** [a / b] on two ints: the correctly rounded float of the exact quotient. *)
Definition true_div (a b : Z) : result Double :=
  if b =? 0 then Raise ZeroDivisionError
  else if a =? 0 then Ok (mkDouble 0 0)
  else
    let (m, e) := round_to_double (Z.abs a) (Z.abs b) in
    if (0 <=? e) && (2 ^ 1024 <=? m * 2 ^ e) then Raise OverflowError
    else Ok (mkDouble (Z.sgn a * Z.sgn b * m) e).

(** [math.ceil(x)] on a float. *)
Definition math_ceil (x : Double) : Z :=
  if 0 <=? exponent x then mantissa x * 2 ^ exponent x
  else - ((- mantissa x) / 2 ^ (- exponent x)).

(** A slice bound brought into [0 .. len], negative bounds counting from the
    end. *)
Definition clamp (len i : Z) : Z :=
  if i <? 0 then Z.max (i + len) 0 else Z.min i len.

(** [xs[m:n]]. *)
Definition slice {A} (xs : list A) (m n : Z) : list A :=
  let len := Z.of_nat (List.length xs) in
  let lo := clamp len m in
  let hi := clamp len n in
  firstn (Z.to_nat (hi - lo)) (skipn (Z.to_nat lo) xs).

Record t : Type := mk {
  lines : list string;
  line_limit : Z;
  base_embed : Embed;
  view : Paginator.t (list Embed)
}.

(** The closure [callback] of [__init__]. *)
Definition page_callback (lines_ : list string) (line_limit_ : Z)
    (base_embed_ : Embed) (page_ : Z) : list Embed :=
  let m := (page_ - 1) * line_limit_ in
  let n := page_ * line_limit_ in
  let emb := base_embed_ in
  let emb := mkEmbed (title emb) (Some (join_lines (slice lines_ m n))) in
  [emb].

(** [base_embed or discord.Embed()]: an embed that counts as false is an
    empty one, so the template is the given embed whenever there is one. *)
Definition __init__ (lines_ : list string) (line_limit_ : Z)
    (base_embed_ : option Embed) : result t :=
  let base := match base_embed_ with Some e => e | None => empty_embed end in
  match true_div (Z.of_nat (List.length lines_)) line_limit_ with
  | Raise e => Raise e
  | Ok quotient =>
      let pages_ := math_ceil quotient in
      Ok (mk lines_ line_limit_ base
             (Paginator.__init__ (page_callback lines_ line_limit_ base)
                                 pages_))
  end.

End StaticPaginator.

(** * More of the API *)

(** ** [APIRoutes.__init__] (api.py, lines 42-55): routes by method name *)

Module Routes.

(** [s.startswith(p)]. *)
Fixpoint startswith (s p : string) {struct p} : bool :=
  match p, s with
  | EmptyString, _ => true
  | String a p', String b s' => Ascii.eqb a b && startswith s' p'
  | String _ _, EmptyString => false
  end.

Fixpoint drop (n : nat) (s : string) : string :=
  match n, s with
  | O, _ => s
  | S n', String _ s' => drop n' s'
  | S _, EmptyString => EmptyString
  end.

(** [s.removeprefix(p)]. *)
Definition removeprefix (s p : string) : string :=
  if startswith s p then drop (String.length p) s else s.

(** [s.split("_")[0]]: what stands before the first underscore. *)
Fixpoint split_first (s : string) : string :=
  match s with
  | EmptyString => EmptyString
  | String c s' =>
      if Ascii.eqb c "_"%char then EmptyString else String c (split_first s')
  end.

(** [s.upper()] on the ASCII letters method names are made of. *)
Definition upper_ascii (c : ascii) : ascii :=
  let n := nat_of_ascii c in
  if ((97 <=? n) && (n <=? 122))%nat then ascii_of_nat (n - 32) else c.

Fixpoint upper (s : string) : string :=
  match s with
  | EmptyString => EmptyString
  | String c s' => String (upper_ascii c) (upper s')
  end.

(** What [router.add_api_route(path, endpoint, methods=...)] is given;
    [endpoint] is the name of the bound method. *)
Record Route : Type := mkRoute {
  path : string;
  endpoint : string;
  methods : list string
}.

(** The test of the loop: a verb prefix, and no leading underscore. *)
Definition is_route (i : string) : bool :=
  existsb (fun a => startswith i a) ["GET_"; "POST_"; "PATCH_"; "DELETE_"]
  && negb (startswith i "_").

Definition route_of (i : string) : Route :=
  let x := split_first i in
  mkRoute ("/" ++ removeprefix i (x ++ "_")) i [upper (split_first i)].

(** The routes added for the attribute names [dir(self)] lists, in order. *)
Definition register (names : list string) : list Route :=
  map route_of (filter is_route names).

End Routes.

(** ** [APIRoutes.GET_get_link_string] (api.py, lines 287-315) *)

Definition GET_get_link_string (authorization : option string) (now : Z)
  : M TokenDoc :=
  raise_if (header_missing authorization)
           (HTTPException 401 "Invalid authorization") ;;;
  token_obj <- require_found
    (fun bot => find_token (header authorization) (api_tokens bot))
    (HTTPException 401 "Invalid authorization") ;;
  raise_if (now >? expires_at token_obj)
           (HTTPException 401 "Invalid authorization") ;;;
  ret token_obj.

(** ** [APIRoutes.GET_get_current_token] (api.py, lines 317-340) *)

Definition GET_get_current_token (host : string) : M TokenDoc :=
  require_found
    (fun bot => find_token_by_id host (api_tokens bot))
    (HTTPException 404 "Could not find token associated with IP").

(** ** [APIRoutes.POST_authorize_token] (api.py, lines 243-285) *)

(** The link-string document the handler returns: the stored document with
    the three keys the handler writes into it.  No code of the API reads
    those keys back, so the stored [LinkStringDoc] does not carry them. *)
Record AuthorizedLink : Type := mkAuthorizedLink {
  al_doc : LinkStringDoc;
  al_token : string;
  al_ip : string;
  al_link_string : string
}.

(** Modelled from the spec: [Document.update_by_id] lives in [utils/mongo.py],
    which is not part of the sources; the stored document with the same [_id]
    is replaced by the given one, and nothing changes when there is none. *)
Fixpoint update_token_by_id (doc : TokenDoc) (docs : list TokenDoc)
  : list TokenDoc :=
  match docs with
  | [] => []
  | d :: docs' =>
      if (tok_id d =? tok_id doc)%string then doc :: docs'
      else d :: update_token_by_id doc docs'
  end.

(** Modelled from the spec: the same [Document.update_by_id], on the link
    strings. *)
Fixpoint update_link_string_by_id (doc : LinkStringDoc)
    (docs : list LinkStringDoc) : list LinkStringDoc :=
  match docs with
  | [] => []
  | d :: docs' =>
      if (ls_id d =? ls_id doc)%string then doc :: docs'
      else d :: update_link_string_by_id doc docs'
  end.

Definition set_link_strings (ls : list LinkStringDoc) (bot : Bot) : Bot :=
  mkBot (api_tokens bot) ls (fivem_links bot) (settings bot) (guilds bot)
        (shifts bot).

(** [token_obj["link_string"] = id]. *)
Definition with_link_string (t : TokenDoc) (id : string) : TokenDoc :=
  mkTokenDoc (tok_id t) (token t) (created_at t) (expires_at t) (Some id).

Definition POST_authorize_token (cfg : Config) (authorization : option string)
    (x_link_string : option string) (now : Z) : M AuthorizedLink :=
  raise_if (header_missing authorization)
           (HTTPException 401 "Invalid authorization") ;;;
  valid <- validate_authorization cfg (header authorization) true now ;;
  raise_if (negb valid)
           (HTTPException 401 "Invalid or expired authorization.") ;;;
  token_obj <- reads (fun bot =>
    find_token (header authorization) (api_tokens bot)) ;;
  raise_if (header_missing x_link_string)
           (HTTPException 401 "Invalid authorization") ;;;
  link_string_obj <- require_found
    (fun bot => find_link_string (header x_link_string) (link_strings bot))
    (HTTPException 401 "Invalid link string") ;;
  match token_obj with
  | None => raise (TypeError "subscript")
  | Some token_obj =>
      let returned :=
        mkAuthorizedLink link_string_obj (header authorization)
                         (tok_id token_obj) (ls_id link_string_obj) in
      modify (fun bot =>
        set_link_strings
          (update_link_string_by_id link_string_obj (link_strings bot)) bot) ;;;
      let token_obj := with_link_string token_obj (ls_id link_string_obj) in
      modify (fun bot =>
        set_api_tokens (update_token_by_id token_obj (api_tokens bot)) bot) ;;;
      ret returned
  end.

(** ** [APIRoutes.POST_get_guild_settings] (api.py, lines 160-170) *)

Definition POST_get_guild_settings (parse_int : string -> option Z)
    (json_data : value) : M Returned :=
  guild_id_ <- lift (get json_data "guild") ;;
  if negb (truthy guild_id_)
  then ret (ReturnedHTTPException 400 "Invalid guild")
  else
    n <- lift (py_int parse_int guild_id_) ;;
    guild <- reads (fun bot => get_guild n (guilds bot)) ;;
    match guild with
    | None => raise (AttributeError "id")
    | Some guild =>
        found <- reads (fun bot =>
          find_settings (VInt (guild_id guild)) (settings bot)) ;;
        match found with
        | Some s =>
            if no_document found
            then ret (ReturnedHTTPException 400 "Invalid guild")
            else ret (ReturnedSettings s)
        | None => ret (ReturnedHTTPException 400 "Invalid guild")
        end
    end.

(** ** [APIRoutes.POST_get_mutual_guilds] (api.py, lines 60-84) *)

(** What the handler reads off a cached guild besides its id and members: the
    name, and the URL [str(guild.icon.with_size(512).with_format("png"))]
    when the guild has an icon. *)
Record GuildInfo : Type := mkGuildInfo {
  gi_name : string;
  gi_icon : option string
}.

(** What a handler hands back when it may also return an [HTTPException]
    object instead of raising it. *)
Inductive Answer : Type :=
| AnswerJson (v : value)
| AnswerHTTPException (status_code : Z) (detail : string).

Definition default_icon : string :=
  "https://cdn.discordapp.com/embed/avatars/0.png?size=512".

(** [str(n)] for an integer. *)
Definition str_int (n : Z) : string := NilZero.string_of_int (Z.to_int n).

(** The dict appended for a guild; a guild without icon makes the [try] block
    fail and gets the default avatar. *)
Definition guild_summary (info : Guild -> GuildInfo) (guild : Guild) : value :=
  let icon :=
    match gi_icon (info guild) with
    | Some url => url
    | None => default_icon
    end in
  VDict [("id", VStr (str_int (guild_id guild)));
         ("name", VStr (gi_name (info guild)));
         ("icon_url", VStr icon)].

(** The loop over [guild_ids]; [guilds_] is the list built so far and
    [bot_user] is [self.bot.user.id]. *)
Fixpoint mutual_guilds_loop (parse_int : string -> option Z)
    (info : Guild -> GuildInfo) (bot_user : Z) (cache : list Guild)
    (guild_ids : list value) (guilds_ : list value) : result (list value) :=
  match guild_ids with
  | [] => Ok guilds_
  | i :: guild_ids' =>
      match py_int parse_int i with
      | Raise e => Raise e
      | Ok n =>
          match get_guild n cache with
          | None =>
              mutual_guilds_loop parse_int info bot_user cache guild_ids'
                                 guilds_
          | Some guild =>
              if existsb (Z.eqb bot_user) (guild_members guild)
              then mutual_guilds_loop parse_int info bot_user cache guild_ids'
                     (guilds_ ++ [guild_summary info guild])
              else mutual_guilds_loop parse_int info bot_user cache guild_ids'
                     guilds_
          end
      end
  end.

Definition POST_get_mutual_guilds (parse_int : string -> option Z)
    (info : Guild -> GuildInfo) (bot_user : Z) (json_data : value)
  : M Answer :=
  guild_ids <- lift (get json_data "guilds") ;;
  if negb (truthy guild_ids)
  then ret (AnswerHTTPException 400 "No guild ids given")
  else
    ids <- lift (iterate guild_ids) ;;
    cache <- reads guilds ;;
    guilds_ <- lift (mutual_guilds_loop parse_int info bot_user cache ids []) ;;
    ret (AnswerJson (VDict [("guilds", VList guilds_)])).

(** ** [example_callback] (paginator.py, lines 6-10) *)

(** [xs[i]] on a list: a negative index counts from the end, and [None]
    stands for the [IndexError] of an index outside the list. *)
Definition list_index {A} (xs : list A) (i : Z) : option A :=
  let len := Z.of_nat (List.length xs) in
  let j := if i <? 0 then i + len else i in
  if (j <? 0) || (j >=? len) then None else nth_error xs (Z.to_nat j).

Definition example_callback {A} (embeds : list A) (page : Z) : option A :=
  list_index embeds (page - 1).

(** * Vocabulary of the properties *)

(** The ceiling of [a / b] as the spec words it, on the exact quotient:
    [Z.div] rounds down. *)
Definition exact_ceiling (a b : Z) : Z := - ((- a) / b).

(** The data-model invariant of the token store: a token string identifies
    its document. *)
Definition tokens_unique (docs : list TokenDoc) : Prop :=
  forall d1 d2, In d1 docs -> In d2 docs -> token d1 = token d2 -> d1 = d2.

(** The document [GET_get_token] builds when it issues a token. *)
Definition issued (host generated : string) (now_created now_expiry : Z)
  : TokenDoc :=
  mkTokenDoc host generated now_created (now_expiry + 2592000) None.

(** Induction on values that reaches inside lists and dicts. *)
Section ValueInduction.
Variable P : value -> Prop.
Hypothesis HNone : P VNone.
Hypothesis HBool : forall b, P (VBool b).
Hypothesis HInt : forall n, P (VInt n).
Hypothesis HStr : forall s, P (VStr s).
Hypothesis HList : forall l, Forall P l -> P (VList l).
Hypothesis HDict : forall d, Forall (fun kv => P (snd kv)) d -> P (VDict d).

End ValueInduction.

(** A duty-on request that gets past every resolution step: token, link
    string, guild, steam id, FiveM link, member and settings. *)
Inductive duty_on_resolved (bot : Bot) (authorization : option string)
    (json : value) (now : Z) : Guild -> Member -> dict -> Prop :=
| DutyOnResolved (tok : TokenDoc) (s : string) (ls : LinkStringDoc)
    (g : Guild) (sid : value) (fl : FivemLink) (st : dict) :
    header_missing authorization = false ->
    find_token (header authorization) (api_tokens bot) = Some tok ->
    now <= expires_at tok ->
    link_string tok = Some s ->
    find_link_string s (link_strings bot) = Some ls ->
    get_guild (ls_guild ls) (guilds bot) = Some g ->
    get json "steam_id" = Ok sid ->
    truthy sid = true ->
    find_fivem_by_steam_id sid (fivem_links bot) = Some fl ->
    fl_id fl <> 0 ->
    existsb (Z.eqb (fl_id fl)) (guild_members g) = true ->
    find_settings (VInt (guild_id g)) (settings bot) = Some st ->
    truthy (VDict st) = true ->
    duty_on_resolved bot authorization json now g (mkMember (fl_id fl)) st.

(** What is left of [POST_duty_on] after the resolution steps
    (lines 516-534). *)
Definition duty_on_shift (json : value) (guild : Guild) (member : Member)
    (settings_ : dict) : M value :=
  available_shift_types <- lift (collect_shift_types settings_) ;;
  requested <- lift (get json "shift_type") ;;
  (if negb (truthy requested)
   then add_shift_by_user member guild None
   else
     requested <- lift (subscript json "shift_type") ;;
     match available_shift_types with
     | None => raise (UnboundLocalError "available_shift_types")
     | Some available =>
         raise_if (negb (contains available requested))
                  (HTTPException 400 "Invalid shift type") ;;;
         add_shift_by_user member guild (Some requested)
     end) ;;;
  shift_type <- lift (get json "shift_type") ;;
  ret (VDict [("status", VStr "success");
              ("member", VInt (member_id member));
              ("shift_type", shift_type)]).

(** A duty-off request that authenticates with a stored token and gets past
    every resolution step. *)
Inductive duty_off_resolved (cfg : Config) (bot : Bot)
    (authorization : option string) (json : value) (now : Z)
  : Guild -> Member -> Prop :=
| DutyOffResolved (tok : TokenDoc) (s : string) (ls : LinkStringDoc)
    (g : Guild) (sid : value) (fl : FivemLink) (st : dict) :
    header_missing authorization = false ->
    validate_authorization cfg (header authorization) false now bot
    = (Ok true, bot) ->
    find_token (header authorization) (api_tokens bot) = Some tok ->
    link_string tok = Some s ->
    find_link_string s (link_strings bot) = Some ls ->
    get_guild (ls_guild ls) (guilds bot) = Some g ->
    get json "steam_id" = Ok sid ->
    truthy sid = true ->
    find_fivem_by_steam_id sid (fivem_links bot) = Some fl ->
    fl_id fl <> 0 ->
    existsb (Z.eqb (fl_id fl)) (guild_members g) = true ->
    find_settings (VInt (guild_id g)) (settings bot) = Some st ->
    truthy (VDict st) = true ->
    duty_off_resolved cfg bot authorization json now g (mkMember (fl_id fl)).


(** The open shifts of a member in a guild: the entries of the member's
    document that the duty-off filter selects. *)
Definition open_shifts (docs : list ShiftDoc) (mid gid : Z)
  : list (option dict) :=
  match find_shifts mid docs with
  | Some d => filter (entry_guild_is gid) (sd_data d)
  | None => []
  end.


(** ** A small bot to run the handlers on *)

Module Example.

Definition cfg : Config := mkConfig "static-secret" "private-key".

Definition tok : TokenDoc :=
  mkTokenDoc "10.0.0.1" "tok-abc" 1000 2593000 (Some "link-1").

Definition stale : TokenDoc := mkTokenDoc "10.0.0.2" "tok-old" 10 500 None.

Definition link : LinkStringDoc := mkLinkStringDoc "link-1" 77.

Definition officer : FivemLink :=
  mkFivemLink 501 (VStr "license:aa") (VStr "steam:110000").

Definition guild : Guild := mkGuild 77 [501; 502].

Definition guild_settings : dict :=
  [("_id", VInt 77);
   ("shift_types",
    VList [VDict [("id", VStr "patrol")]; VDict [("id", VStr "swat")]])].

(** Settings without any [shift_types] entry. *)
Definition bare_settings : dict := [("_id", VInt 77)].

Definition bot : Bot :=
  mkBot [tok; stale] [link] [officer] [guild_settings] [guild] [].

Definition bot_unconfigured : Bot :=
  mkBot [tok; stale] [link] [officer] [bare_settings] [guild] [].

Definition patrol_shift : dict :=
  [("guild", VInt 77); ("shift_type", VStr "patrol")].

(** [bot] once the officer is on duty. *)
Definition bot_on_duty : Bot :=
  mkBot [tok; stale] [link] [officer] [guild_settings] [guild]
        [mkShiftDoc 501 [Some patrol_shift]].

(** [bot_on_duty] once that shift is closed. *)
Definition bot_off_duty : Bot :=
  mkBot [tok; stale] [link] [officer] [guild_settings] [guild]
        [mkShiftDoc 501 []].

Definition ident : Identification :=
  mkIdentification (VStr "license:aa") VNone fivem.

Definition duty_body (shift_type : string) : value :=
  VDict [("steam_id", VStr "steam:110000"); ("shift_type", VStr shift_type)].

Definition duty_off_body : value :=
  VDict [("guild", VInt 77); ("steam_id", VStr "steam:110000")].

Definition thirty_two_lines : list string := repeat "line" 32.

End Example.

(** ** Vocabulary of the further properties *)

(** The verbs a handler name may start with. *)
Definition verbs : list string := ["GET"; "POST"; "PATCH"; "DELETE"].

(** What holds of every state a paginator with at least one page reaches. *)
Definition settled {E : Type} (self : Paginator.t E) : Prop :=
  1 <= Paginator.page self <= Paginator.pages self /\
  Paginator.prev_disabled self = (Paginator.page self <=? 1) /\
  Paginator.next_disabled self
  = (Paginator.page self >=? Paginator.pages self).

(** The page numbers [1 .. n]. *)
Definition page_numbers (n : Z) : list Z :=
  map Z.of_nat (seq 1 (Z.to_nat n)).

(** The section after [for k, v in value.items(): section[k] = v]. *)
Definition merged (inner items : dict) : dict :=
  fold_left (fun acc kv => dict_set acc (fst kv) (snd kv)) items inner.

(** The cached guilds the request names and the bot is a member of, in the
    order of the request. *)
Definition mutual (bot_user : Z) (cache : list Guild) (ids : list Z)
  : list Guild :=
  flat_map (fun n =>
              match get_guild n cache with
              | Some guild =>
                  if existsb (Z.eqb bot_user) (guild_members guild)
                  then [guild] else []
              | None => []
              end) ids.

(** ** More sample data *)

Module Sample.

(** Settings with two dict-valued sections. *)
Definition themed_settings : dict :=
  [("_id", VInt 77);
   ("customisation", VDict [("prefix", VStr "!")]);
   ("extras", VDict [])].

Definition rethemed_settings : dict :=
  [("_id", VInt 77);
   ("customisation", VDict [("prefix", VStr "?")]);
   ("extras", VDict [])].

Definition themed_bot : Bot :=
  mkBot [Example.tok; Example.stale] [Example.link] [Example.officer]
        [themed_settings] [Example.guild] [].

Definition themed_body : value :=
  VDict [("guild", VInt 77);
         ("customisation", VDict [("prefix", VStr "?")])].

(** A token store in which two clients hold the same token string. *)
Definition expired_duplicate : TokenDoc :=
  mkTokenDoc "10.0.0.3" "tok-dup" 10 500 None.

Definition fresh_duplicate : TokenDoc :=
  mkTokenDoc "10.0.0.4" "tok-dup" 1000 2593000 None.

Definition bot_duplicate : Bot :=
  mkBot [expired_duplicate; fresh_duplicate] [Example.link] [Example.officer]
        [Example.guild_settings] [Example.guild] [].


Definition two_dicts_body : value :=
  VDict [("guild", VInt 77);
         ("customisation", VDict [("prefix", VStr "?")]);
         ("extras", VDict [("motd", VStr "hello")])].

End Sample.

(** * Properties *)

(** ** Token issuance and validation *)

Ltac run_monad :=
  cbv beta iota delta [bind ret raise lift reads modify raise_if require_found
                       require_document no_document] in *.

(** One step of a handler: rewrite with a fact about the stores or the
    request and reduce what it unblocks. *)
Ltac step :=
  match goal with
  | H : ?x = _ |- context [?x] => rewrite H
  end; run_monad; cbn [negb].

Lemma find_token_In (t : string) (docs : list TokenDoc) (d : TokenDoc) :
  find_token t docs = Some d -> In d docs /\ token d = t.
Proof.
  unfold find_token. intros H. apply find_some in H.
  destruct H as [Hin Heq]. apply String.eqb_eq in Heq. auto.
Qed.

Lemma find_token_unique (docs : list TokenDoc) (d : TokenDoc) :
  tokens_unique docs -> In d docs -> find_token (token d) docs = Some d.
Proof.
  intros Hu Hin. unfold find_token.
  destruct (find (fun d0 => (token d0 =? token d)%string) docs) as [d'|] eqn:Hf.
  - apply find_some in Hf. destruct Hf as [Hin' Heq].
    apply String.eqb_eq in Heq. f_equal. apply Hu; assumption.
  - exfalso. apply (find_none _ _ Hf) in Hin.
    rewrite String.eqb_refl in Hin. discriminate.
Qed.

Lemma find_token_by_id_In (host : string) (docs : list TokenDoc) (d : TokenDoc) :
  find_token_by_id host docs = Some d -> In d docs /\ tok_id d = host.
Proof.
  unfold find_token_by_id. intros H. apply find_some in H.
  destruct H as [Hin Heq]. apply String.eqb_eq in Heq. auto.
Qed.

Lemma find_upsert_token (doc : TokenDoc) (docs : list TokenDoc) :
  find_token_by_id (tok_id doc) (upsert_token doc docs) = Some doc.
Proof.
  unfold find_token_by_id.
  induction docs as [|d docs IH]; simpl.
  - rewrite String.eqb_refl. reflexivity.
  - destruct (tok_id d =? tok_id doc)%string eqn:E; simpl.
    + rewrite String.eqb_refl. reflexivity.
    + rewrite E. exact IH.
Qed.

(** The validator computes the verdict of the first document carrying the
    token, whatever the store holds. *)
Lemma validate_authorization_run (cfg : Config) (t : string) (dis : bool)
    (now : Z) (bot : Bot) :
  validate_authorization cfg t dis now bot =
  (Ok ((negb dis && (t =? API_STATIC_TOKEN cfg)%string)
       || match find_token t (api_tokens bot) with
          | Some d => now <? expires_at d
          | None => false
          end), bot).
Proof.
  unfold validate_authorization.
  destruct (negb dis && (t =? API_STATIC_TOKEN cfg)%string); simpl.
  - reflexivity.
  - run_monad. destruct (find_token t (api_tokens bot)) as [d|].
    + destruct (now <? expires_at d); reflexivity.
    + reflexivity.
Qed.

Lemma find_token_first (t : string) (before : list TokenDoc) (d : TokenDoc)
    (after : list TokenDoc) :
  (forall x, In x before -> token x <> t) -> token d = t ->
  find_token t (before ++ d :: after) = Some d.
Proof.
  unfold find_token. intros Hb Hd.
  induction before as [|x before IH]; simpl.
  - rewrite Hd, String.eqb_refl. reflexivity.
  - assert (Hx : (token x =? t)%string = false)
      by (apply String.eqb_neq; apply Hb; left; reflexivity).
    rewrite Hx. apply IH. intros y Hy. apply Hb. right. exact Hy.
Qed.

Lemma find_token_split (t : string) (docs : list TokenDoc) (d : TokenDoc) :
  find_token t docs = Some d ->
  exists before after,
    docs = (before ++ d :: after)%list /\
    (forall x, In x before -> token x <> t) /\ token d = t.
Proof.
  unfold find_token. induction docs as [|x docs IH]; simpl; [discriminate|].
  destruct (token x =? t)%string eqn:Hx.
  - intros H. injection H as ->. exists [], docs.
    apply String.eqb_eq in Hx. split; [reflexivity|]. split; [|exact Hx].
    intros y [].
  - intros H. destruct (IH H) as [before [after [-> [Hb Hd]]]].
    exists (x :: before), after. split; [reflexivity|]. split; [|exact Hd].
    intros y [<-|Hy]; [apply String.eqb_neq; exact Hx | apply Hb; exact Hy].
Qed.

(** C1, as amended.  For every token string and every bot state,
    [validate_authorization] returns normally, and it returns [True] exactly
    when the static bypass is enabled and the token is the configured secret,
    or some stored document carries the token and the current time is
    strictly below the [expires_at] of the first such document in the store,
    the one the lookup returns; otherwise it returns [False].  It never
    raises. *)
Theorem validate_authorization_first_match (cfg : Config) (bot : Bot)
    (t : string) (disable_static_tokens : bool) (now : Z) :
  exists b : bool,
    validate_authorization cfg t disable_static_tokens now bot = (Ok b, bot) /\
    (b = true <->
       (disable_static_tokens = false /\ t = API_STATIC_TOKEN cfg) \/
       (exists before d after,
          api_tokens bot = (before ++ d :: after)%list /\
          (forall x, In x before -> token x <> t) /\
          token d = t /\ now < expires_at d)).
Proof.
  rewrite validate_authorization_run.
  eexists. split; [reflexivity|].
  rewrite orb_true_iff, andb_true_iff, negb_true_iff, String.eqb_eq.
  split.
  - intros [H|H]; [left; exact H|right].
    destruct (find_token t (api_tokens bot)) as [d|] eqn:Hf; [|discriminate].
    destruct (find_token_split _ _ _ Hf) as [before [after [Heq [Hb Hd]]]].
    exists before, d, after. repeat split; try assumption.
    apply Z.ltb_lt. exact H.
  - intros [H|[before [d [after [Heq [Hb [Hd Hlt]]]]]]]; [left; exact H|right].
    rewrite Heq, (find_token_first t before d after Hb Hd).
    apply Z.ltb_lt. exact Hlt.
Qed.

(** C1, the claim as stated fails: when two documents carry the same token,
    the first expired and the second not, the lookup stops at the first and
    the validator answers [False] although an unexpired document with the
    token exists. *)
Lemma validate_authorization_duplicate_tokens :
  ~ (forall (cfg : Config) (bot : Bot) (t : string)
            (disable_static_tokens : bool) (now : Z),
       exists b : bool,
         validate_authorization cfg t disable_static_tokens now bot
         = (Ok b, bot) /\
         (b = true <->
            (disable_static_tokens = false /\ t = API_STATIC_TOKEN cfg) \/
            (exists d, In d (api_tokens bot) /\ token d = t /\
                       now < expires_at d))).
Proof.
  intros H.
  destruct (H Example.cfg Sample.bot_duplicate "tok-dup" false 2000)
    as [b [Hb Hiff]].
  vm_compute in Hb. injection Hb as <-.
  assert (Hfalse : false = true).
  { apply Hiff. right. exists Sample.fresh_duplicate.
    split; [right; left; reflexivity|]. split; [reflexivity|].
    reflexivity. }
  discriminate Hfalse.
Qed.

(** Under the data-model invariant that a token string identifies its
    document, the first document with the token is the only one, and the
    verdict is that of any stored document carrying the token. *)
Theorem validate_authorization_iff (cfg : Config) (bot : Bot) (t : string)
    (disable_static_tokens : bool) (now : Z) :
  tokens_unique (api_tokens bot) ->
  exists b : bool,
    validate_authorization cfg t disable_static_tokens now bot = (Ok b, bot) /\
    (b = true <->
       (disable_static_tokens = false /\ t = API_STATIC_TOKEN cfg) \/
       (exists d, In d (api_tokens bot) /\ token d = t /\ now < expires_at d)).
Proof.
  intros Hu. rewrite validate_authorization_run.
  eexists. split; [reflexivity|].
  rewrite orb_true_iff, andb_true_iff, negb_true_iff, String.eqb_eq.
  split.
  - intros [H|H]; [left; exact H|right].
    destruct (find_token t (api_tokens bot)) as [d|] eqn:Hf; [|discriminate].
    apply find_token_In in Hf. destruct Hf as [Hin Ht].
    exists d. repeat split; try assumption. apply Z.ltb_lt. exact H.
  - intros [H|[d [Hin [Ht Hlt]]]]; [left; exact H|right].
    subst t. rewrite (find_token_unique _ _ Hu Hin).
    apply Z.ltb_lt. exact Hlt.
Qed.

Lemma GET_get_token_reuse (cfg : Config) (bot : Bot) (host generated : string)
    (d : TokenDoc) (now_check now_created now_expiry : Z) :
  find_token_by_id host (api_tokens bot) = Some d ->
  now_check <= expires_at d ->
  GET_get_token cfg (Some (API_PRIVATE_KEY cfg)) host generated
                now_check now_created now_expiry bot = (Ok d, bot).
Proof.
  intros Hf Hle. unfold GET_get_token. run_monad. cbv beta.
  rewrite String.eqb_refl. cbn [negb]. rewrite Hf.
  replace (now_check >? expires_at d) with false
    by (symmetry; rewrite Z.gtb_ltb; apply Z.ltb_ge; exact Hle).
  reflexivity.
Qed.

Lemma GET_get_token_fresh (cfg : Config) (bot : Bot) (host generated : string)
    (now_check now_created now_expiry : Z) :
  (forall d, find_token_by_id host (api_tokens bot) = Some d ->
             expires_at d < now_check) ->
  GET_get_token cfg (Some (API_PRIVATE_KEY cfg)) host generated
                now_check now_created now_expiry bot
  = (Ok (issued host generated now_created now_expiry),
     set_api_tokens
       (upsert_token (issued host generated now_created now_expiry)
                     (api_tokens bot)) bot).
Proof.
  intros Hexp. unfold GET_get_token. run_monad. cbv beta.
  rewrite String.eqb_refl. cbn [negb].
  destruct (find_token_by_id host (api_tokens bot)) as [d|] eqn:Hf.
  - specialize (Hexp d eq_refl).
    replace (now_check >? expires_at d) with true
      by (symmetry; rewrite Z.gtb_ltb; apply Z.ltb_lt; exact Hexp).
    reflexivity.
  - reflexivity.
Qed.

(** C2.  With the correct private key: a stored token of the client whose
    expiry has not passed is returned unchanged and the store is left as it
    was; only when the client has no such token is a new one generated,
    persisted under the client's address and returned; and a call repeated
    within the validity window of the token just handed out returns that same
    token and changes nothing. *)
Theorem GET_get_token_idempotent (cfg : Config) (bot : Bot)
    (host generated : string) (now_check now_created now_expiry : Z) :
  let call := GET_get_token cfg (Some (API_PRIVATE_KEY cfg)) host in
  let object := issued host generated now_created now_expiry in
  let stored := set_api_tokens (upsert_token object (api_tokens bot)) bot in
  (forall d, find_token_by_id host (api_tokens bot) = Some d ->
             now_check <= expires_at d ->
             call generated now_check now_created now_expiry bot = (Ok d, bot))
  /\
  ((forall d, find_token_by_id host (api_tokens bot) = Some d ->
              expires_at d < now_check) ->
   call generated now_check now_created now_expiry bot = (Ok object, stored) /\
   find_token_by_id host (api_tokens stored) = Some object)
  /\
  (forall d bot', call generated now_check now_created now_expiry bot
                  = (Ok d, bot') ->
     forall generated' later later_created later_expiry,
       later <= expires_at d ->
       call generated' later later_created later_expiry bot' = (Ok d, bot')).
Proof.
  intros call object stored.
  assert (Hstored : find_token_by_id host (api_tokens stored) = Some object)
    by (unfold stored; simpl; apply (find_upsert_token object)).
  split; [|split].
  - intros d Hf Hle. apply GET_get_token_reuse; assumption.
  - intros Hexp. split; [apply GET_get_token_fresh; exact Hexp | exact Hstored].
  - intros d bot' Hcall g' later lc le Hle. unfold call in *.
    destruct (find_token_by_id host (api_tokens bot)) as [d0|] eqn:Hf.
    + destruct (Z_le_gt_dec now_check (expires_at d0)) as [Hin|Hout].
      * rewrite (GET_get_token_reuse cfg bot host generated d0 _ _ _ Hf Hin)
          in Hcall.
        injection Hcall as <- <-. apply GET_get_token_reuse; assumption.
      * rewrite GET_get_token_fresh in Hcall.
        -- injection Hcall as <- <-. apply GET_get_token_reuse; assumption.
        -- intros d1 Hd1. rewrite Hf in Hd1. injection Hd1 as <-. lia.
    + rewrite GET_get_token_fresh in Hcall
        by (intros d1 Hd1; rewrite Hf in Hd1; discriminate).
      injection Hcall as <- <-. apply GET_get_token_reuse; assumption.
Qed.

(** C9.  At the instant when the clock equals a stored token's [expires_at],
    issuance still treats the token as valid and hands it out unchanged,
    while validation of that very token answers [False] (unless the token
    happens to be the static secret and the bypass is enabled). *)
Theorem expiry_boundary_disagreement (cfg : Config) (bot : Bot)
    (host generated : string) (d : TokenDoc)
    (now now_created now_expiry : Z) (disable_static_tokens : bool) :
  tokens_unique (api_tokens bot) ->
  find_token_by_id host (api_tokens bot) = Some d ->
  now = expires_at d ->
  disable_static_tokens = true \/ token d <> API_STATIC_TOKEN cfg ->
  GET_get_token cfg (Some (API_PRIVATE_KEY cfg)) host generated
                now now_created now_expiry bot = (Ok d, bot) /\
  validate_authorization cfg (token d) disable_static_tokens now bot
  = (Ok false, bot).
Proof.
  intros Hu Hf Hnow Hstatic. split.
  - apply (GET_get_token_reuse cfg bot host generated d now now_created
             now_expiry Hf). lia.
  - rewrite validate_authorization_run.
    apply find_token_by_id_In in Hf. destruct Hf as [Hin _].
    rewrite (find_token_unique _ _ Hu Hin).
    replace (now <? expires_at d) with false
      by (symmetry; apply Z.ltb_ge; lia).
    destruct Hstatic as [-> | Hne]; simpl.
    + reflexivity.
    + apply String.eqb_neq in Hne. rewrite Hne, andb_false_r. reflexivity.
Qed.

(** ** Identity lookups *)

Lemma gtb_false_of_le (a b : Z) : a <= b -> (a >? b) = false.
Proof. intros H. rewrite Z.gtb_ltb. apply Z.ltb_ge. exact H. Qed.

Lemma get_truthy_subscript (x v : value) (k : string) :
  get x k = Ok v -> truthy v = true ->
  truthy x = true /\ subscript x k = Ok v.
Proof.
  destruct x; simpl; try discriminate.
  intros H Ht. injection H as <-. unfold dict_get in *.
  destruct (lookup k d) as [w|] eqn:Hl; [|discriminate].
  split; [|reflexivity]. destruct d; [discriminate|reflexivity].
Qed.

(** C8.  Once a request to [POST_get_discord] (resp. [POST_get_fivem]) is
    past the authorization, link-string and body checks, the handler returns
    [None] when a matching FiveM link exists, because that is what
    [{"status": "success"}.update(fivem_link)] evaluates to, and returns
    [{"status": "failed"}] only when there is no matching link. *)
Theorem get_discord_get_fivem_result (bot : Bot)
    (authorization : option string) (now : Z) (tok : TokenDoc) (s : string)
    (ls : LinkStringDoc) :
  header_missing authorization = false ->
  find_token (header authorization) (api_tokens bot) = Some tok ->
  now <= expires_at tok ->
  link_string tok = Some s ->
  find_link_string s (link_strings bot) = Some ls ->
  (forall link, snd (dict_update [("status", VStr "success")]
                                 (dict_of_fivem_link link)) = VNone)
  /\
  (forall body, truthy (id_license body) = true ->
     POST_get_discord authorization body now bot =
     (Ok match find_fivem_by_license (id_license body) (fivem_links bot) with
         | Some _ => VNone
         | None => VDict [("status", VStr "failed")]
         end, bot))
  /\
  (forall json discord_id,
     get json "discord_id" = Ok discord_id -> truthy discord_id = true ->
     POST_get_fivem authorization json now bot =
     (Ok match find_fivem_by_id discord_id (fivem_links bot) with
         | Some _ => VNone
         | None => VDict [("status", VStr "failed")]
         end, bot)).
Proof.
  intros Hh Hf Hle Hs Hl. split; [reflexivity|]. split.
  - intros body Hb. unfold POST_get_discord, token_link_string. run_monad.
    rewrite Hh, Hf, (gtb_false_of_le _ _ Hle), Hs, Hl, Hb. cbn [negb].
    destruct (find_fivem_by_license (id_license body) (fivem_links bot));
      reflexivity.
  - intros json discord_id Hg Ht.
    destruct (get_truthy_subscript _ _ _ Hg Ht) as [Hj Hsub].
    unfold POST_get_fivem, token_link_string. run_monad.
    rewrite Hh, Hf, (gtb_false_of_le _ _ Hle), Hs, Hl, Hj, Hg, Ht, Hsub.
    cbn [negb].
    destruct (find_fivem_by_id discord_id (fivem_links bot)); reflexivity.
Qed.

(** ** Guild settings *)

Lemma update_loop_no_dict (guild_id_ : value) (items : dict)
    (settings_ : option dict) (bot : Bot) :
  (forall k v, In (k, v) items -> k <> "guild" -> is_dict v = false) ->
  update_loop guild_id_ items settings_ bot = (Ok (inr settings_), bot).
Proof.
  induction items as [|[k v] items IH]; intros H.
  - reflexivity.
  - simpl. destruct (k =? "guild")%string eqn:E.
    + apply IH. intros k' v' Hin. apply H. right. exact Hin.
    + assert (Hv : is_dict v = false).
      { apply (H k v); [left; reflexivity|]. apply String.eqb_neq. exact E. }
      destruct v; try discriminate Hv;
        apply IH; intros k' v' Hin; apply H; right; exact Hin.
Qed.

(** C10.  When the JSON body has no dict-valued entry under a key other than
    ["guild"], the handler reaches [update_by_id(settings)] with [settings]
    unbound and raises the name error instead of answering with an HTTP
    error, whether or not a guild id was supplied.  The check that turns a
    missing guild id into the 400 "Invalid guild" answer sits after the
    persistence call: when the loop did bind [settings], the store has been
    updated by the time that answer is produced. *)
Theorem POST_update_guild_settings_unbound (parse_int : string -> option Z)
    (bot : Bot) (d : dict) :
  ((forall k v, In (k, v) d -> k <> "guild" -> is_dict v = false) ->
   POST_update_guild_settings parse_int (VDict d) bot
   = (Raise (UnboundLocalError "settings"), bot))
  /\
  (forall s, update_loop (dict_get d "guild") d None bot
             = (Ok (inr (Some s)), bot) ->
             truthy (dict_get d "guild") = false ->
   POST_update_guild_settings parse_int (VDict d) bot
   = (Ok (ReturnedHTTPException 400 "Invalid guild"),
      set_settings (update_settings_by_id s (settings bot)) bot)).
Proof.
  split.
  - intros H. unfold POST_update_guild_settings. simpl get. run_monad.
    rewrite (update_loop_no_dict _ _ _ _ H). reflexivity.
  - intros s Hloop Hg. unfold POST_update_guild_settings. simpl get.
    run_monad. rewrite Hloop, Hg. reflexivity.
Qed.

(** ** Duty shifts *)


(** The shift type membership test is reached with the list unbound when the
    settings carry no (or an empty) [shift_types] entry. *)
Lemma duty_on_shift_unbound (bot : Bot) (json requested : value) (g : Guild)
    (m : Member) (st : dict) :
  get json "shift_type" = Ok requested ->
  truthy requested = true ->
  truthy (dict_get st "shift_types") = false ->
  duty_on_shift json g m st bot
  = (Raise (UnboundLocalError "available_shift_types"), bot).
Proof.
  intros Hg Ht Hst.
  destruct (get_truthy_subscript _ _ _ Hg Ht) as [_ Hsub].
  unfold duty_on_shift, collect_shift_types. run_monad.
  repeat step. reflexivity.
Qed.

(** With configured shift types, a requested type outside them is answered
    with 400 and one among them opens a shift tagged with it. *)
Lemma duty_on_shift_configured (bot : Bot) (json requested : value)
    (g : Guild) (m : Member) (st : dict) (available : list value) :
  get json "shift_type" = Ok requested ->
  truthy requested = true ->
  collect_shift_types st = Ok (Some available) ->
  duty_on_shift json g m st bot =
  if contains available requested
  then (Ok (VDict [("status", VStr "success");
                   ("member", VInt (member_id m));
                   ("shift_type", requested)]),
        set_shifts (open_shift (member_id m) (shift_entry g (Some requested))
                               (shifts bot)) bot)
  else (Raise (HTTPException 400 "Invalid shift type"), bot).
Proof.
  intros Hg Ht Hst.
  destruct (get_truthy_subscript _ _ _ Hg Ht) as [_ Hsub].
  unfold duty_on_shift, add_shift_by_user. run_monad.
  repeat step.
  destruct (contains available requested); run_monad; cbn [negb];
    repeat step; reflexivity.
Qed.

(** Without a requested shift type an untagged shift is opened. *)
Lemma duty_on_shift_untagged (bot : Bot) (json requested : value)
    (g : Guild) (m : Member) (st : dict) (available : option (list value)) :
  get json "shift_type" = Ok requested ->
  truthy requested = false ->
  collect_shift_types st = Ok available ->
  duty_on_shift json g m st bot =
  (Ok (VDict [("status", VStr "success");
              ("member", VInt (member_id m));
              ("shift_type", requested)]),
   set_shifts (open_shift (member_id m) (shift_entry g None) (shifts bot)) bot).
Proof.
  intros Hg Ht Hst.
  unfold duty_on_shift, add_shift_by_user. run_monad.
  repeat step. reflexivity.
Qed.







Lemma find_open_shift (mid : Z) (entry : dict) (docs : list ShiftDoc) :
  exists d, find_shifts mid (open_shift mid entry docs) = Some d /\
            In (Some entry) (sd_data d).
Proof.
  unfold find_shifts. induction docs as [|d docs IH]; simpl.
  - rewrite Z.eqb_refl. eexists. split; [reflexivity|]. left. reflexivity.
  - destruct (sd_id d =? mid) eqn:E; simpl; rewrite E.
    + eexists. split; [reflexivity|]. simpl. apply in_or_app. right. left.
      reflexivity.
    + exact IH.
Qed.

Lemma shift_entry_guild (g : Guild) (shift_type : option value) :
  entry_guild_is (guild_id g) (Some (shift_entry g shift_type)) = true.
Proof.
  unfold entry_guild_is, shift_entry, dict_get. simpl. apply Z.eqb_refl.
Qed.

Lemma open_shift_opens (mid : Z) (g : Guild) (shift_type : option value)
    (docs : list ShiftDoc) :
  open_shifts (open_shift mid (shift_entry g shift_type) docs) mid (guild_id g)
  <> [].
Proof.
  unfold open_shifts.
  destruct (find_open_shift mid (shift_entry g shift_type) docs)
    as [d [Hf Hin]].
  rewrite Hf. intros Hnil.
  assert (H : In (Some (shift_entry g shift_type))
                 (filter (entry_guild_is (guild_id g)) (sd_data d)))
    by (apply filter_In; split; [exact Hin | apply shift_entry_guild]).
  rewrite Hnil in H. exact H.
Qed.


(** With a valid header that matches no stored token, the handler takes the
    guild from the body and then cannot finish: the raw JSON value has no
    [fetch_member], so every such request ends in an exception. *)
Lemma POST_duty_off_without_token (cfg : Config) (bot : Bot)
    (authorization : option string) (json : value) (now : Z) :
  header_missing authorization = false ->
  validate_authorization cfg (header authorization) false now bot
  = (Ok true, bot) ->
  find_token (header authorization) (api_tokens bot) = None ->
  POST_duty_off cfg authorization json now bot =
  (Raise match subscript json "guild" with
         | Raise e => e
         | Ok g => if truthy g then AttributeError "fetch_member"
                   else HTTPException 404 "Guild not found"
         end, bot).
Proof.
  intros Hh Hv Hf.
  unfold POST_duty_off, guild_truthy. run_monad. repeat step.
  destruct (subscript json "guild") as [g|e] eqn:Hsub; [|reflexivity].
  destruct (truthy g) eqn:Hg; cbn [negb]; [|reflexivity].
  assert (Hj : truthy json = true).
  { destruct json; simpl in Hsub; try discriminate.
    destruct d; [discriminate | reflexivity]. }
  rewrite Hj. reflexivity.
Qed.


(** Case analysis on one check of a handler that is known to have returned. *)
Ltac passed H t :=
  destruct t eqn:?; run_monad; cbn [negb] in H; try discriminate H.

(** Every duty-on that returns went through the resolution steps: the
    hypotheses of [duty_on_resolved] restrict nothing, they name the guild
    and the member. *)
Lemma POST_duty_on_success_resolved (bot bot1 : Bot)
    (authorization : option string) (identification : Identification)
    (json resp : value) (now : Z) :
  POST_duty_on authorization identification json now bot = (Ok resp, bot1) ->
  exists g m st, duty_on_resolved bot authorization json now g m st.
Proof.
  intros H.
  unfold POST_duty_on, token_link_string, fetch_member in H. run_monad.
  passed H (header_missing authorization).
  passed H (find_token (header authorization) (api_tokens bot)).
  match type of H with context [now >? expires_at ?t] =>
    passed H (now >? expires_at t); passed H (link_string t) end.
  match type of H with context [find_link_string ?s _] =>
    passed H (find_link_string s (link_strings bot)) end.
  match type of H with context [get_guild ?i _] =>
    passed H (get_guild i (guilds bot)) end.
  passed H (truthy json).
  passed H (get json "steam_id").
  match type of H with context [negb (truthy ?v)] => passed H (truthy v) end.
  passed H (subscript json "steam_id").
  match type of H with context [find_fivem_by_steam_id ?v _] =>
    passed H (find_fivem_by_steam_id v (fivem_links bot)) end.
  match type of H with context [fl_id ?f =? 0] => passed H (fl_id f =? 0) end.
  match type of H with context [existsb ?f ?l] => passed H (existsb f l) end.
  match type of H with context [find_settings ?i _] =>
    passed H (find_settings i (settings bot)) end.
  match type of H with context [truthy (VDict ?d)] =>
    passed H (truthy (VDict d)) end.
  match goal with
  | Hg : get json "steam_id" = Ok ?a, Ht : truthy ?a = true,
    Hs : subscript json "steam_id" = Ok ?b |- _ =>
      destruct (get_truthy_subscript _ _ _ Hg Ht) as [_ Hsub];
      rewrite Hsub in Hs; injection Hs as <-
  end.
  do 3 eexists. econstructor; try eassumption.
  - rewrite Z.gtb_ltb in *. apply Z.ltb_ge. eassumption.
  - apply Z.eqb_neq. eassumption.
Qed.

(** Every duty-off that returns authenticated with a stored token and went
    through the resolution steps. *)
Lemma POST_duty_off_success_resolved (cfg : Config) (bot bot2 : Bot)
    (authorization : option string) (json : value) (now : Z) :
  POST_duty_off cfg authorization json now bot = (Ok tt, bot2) ->
  exists g m, duty_off_resolved cfg bot authorization json now g m.
Proof.
  intros H. pose proof H as Hcall.
  unfold POST_duty_off, token_link_string, fetch_member, guild_truthy in H.
  run_monad.
  passed H (header_missing authorization).
  destruct (validate_authorization cfg (header authorization) false now bot)
    as [[valid|e] bot'] eqn:Hv; [|discriminate H].
  assert (bot' = bot) as ->
    by (rewrite validate_authorization_run in Hv; congruence).
  passed H valid.
  passed H (find_token (header authorization) (api_tokens bot)).
  - match type of H with context [link_string ?t] =>
      passed H (link_string t) end.
    match type of H with context [find_link_string ?s _] =>
      passed H (find_link_string s (link_strings bot)) end.
    match type of H with context [get_guild ?i _] =>
      passed H (get_guild i (guilds bot)) end.
    passed H (truthy json).
    passed H (get json "steam_id").
    match type of H with context [negb (truthy ?v)] => passed H (truthy v) end.
    passed H (subscript json "steam_id").
    match type of H with context [find_fivem_by_steam_id ?v _] =>
      passed H (find_fivem_by_steam_id v (fivem_links bot)) end.
    match type of H with context [fl_id ?f =? 0] =>
      passed H (fl_id f =? 0) end.
    match type of H with context [existsb ?f ?l] => passed H (existsb f l) end.
    match type of H with context [find_settings ?i _] =>
      passed H (find_settings i (settings bot)) end.
    match type of H with context [truthy (VDict ?d)] =>
      passed H (truthy (VDict d)) end.
    match goal with
    | Hg : get json "steam_id" = Ok ?a, Ht : truthy ?a = true,
      Hs : subscript json "steam_id" = Ok ?b |- _ =>
        destruct (get_truthy_subscript _ _ _ Hg Ht) as [_ Hsub];
        rewrite Hsub in Hs; injection Hs as <-
    end.
    do 2 eexists. econstructor; try eassumption.
    apply Z.eqb_neq. eassumption.
  - exfalso.
    rewrite (POST_duty_off_without_token cfg bot authorization json now)
      in Hcall; try assumption; discriminate Hcall.
Qed.






(** ** The paginator *)

Section PaginatorBounds.
Import Paginator.
Context {E : Type}.

Lemma press_page (self : t E) :
  page (press self Back) = Z.max (page self - 1) 1 /\
  page (press self Next) = Z.min (page self + 1) (pages self) /\
  pages (press self Back) = pages self /\
  pages (press self Next) = pages self.
Proof. repeat split. Qed.

Lemma presses_in_bounds (bs : list Button) :
  forall self : t E,
    1 <= page self <= pages self ->
    1 <= page (presses self bs) <= pages self /\
    pages (presses self bs) = pages self.
Proof.
  unfold presses.
  induction bs as [|b bs IH]; intros self Hb; simpl.
  - split; [exact Hb | reflexivity].
  - destruct (press_page self) as [Hback [Hnext [Hpb Hpn]]].
    destruct b.
    + destruct (IH (press self Back)) as [H1 H2];
        [rewrite Hback, Hpb; lia | rewrite Hpb in *; split; assumption].
    + destruct (IH (press self Next)) as [H1 H2];
        [rewrite Hnext, Hpn; lia | rewrite Hpn in *; split; assumption].
Qed.

End PaginatorBounds.

(** C6, as amended.  For a paginator built with at least one page, the cursor
    starts at 1, "previous" sets it to [max (page - 1) 1], "next" sets it to
    [min (page + 1) pages], and after any finite sequence of presses it lies
    in [[1, pages]]. *)
Theorem paginator_page_in_bounds (E : Type) (callback_ : Z -> E) (pages_ : Z)
    (bs : list Paginator.Button) :
  1 <= pages_ ->
  Paginator.page (Paginator.__init__ callback_ pages_) = 1 /\
  (forall self : Paginator.t E,
     Paginator.page (Paginator.press self Paginator.Back)
     = Z.max (Paginator.page self - 1) 1 /\
     Paginator.page (Paginator.press self Paginator.Next)
     = Z.min (Paginator.page self + 1) (Paginator.pages self)) /\
  1 <= Paginator.page
         (Paginator.presses (Paginator.__init__ callback_ pages_) bs)
    <= pages_.
Proof.
  intros Hp. split; [reflexivity|]. split.
  - intros self. split; reflexivity.
  - apply (presses_in_bounds bs (Paginator.__init__ callback_ pages_)).
    simpl. lia.
Qed.

(** C6, the claim as stated fails: a paginator with no page at all starts
    outside the interval, and "next" then moves the cursor to 0. *)
Lemma paginator_page_out_of_bounds :
  ~ (forall (pages_ : Z) (bs : list Paginator.Button),
       1 <= Paginator.page
              (Paginator.presses (Paginator.__init__ (fun _ : Z => tt) pages_)
                                 bs)
         <= pages_).
Proof.
  intros H. specialize (H 0 [Paginator.Next]). simpl in H. lia.
Qed.

Lemma exact_ceiling_bounds (a b : Z) :
  0 < b -> a <= exact_ceiling a b * b /\ (exact_ceiling a b - 1) * b < a.
Proof.
  intros Hb. unfold exact_ceiling.
  pose proof (Z.div_mod (- a) b ltac:(lia)) as Hdm.
  pose proof (Z.mod_pos_bound (- a) b Hb) as Hr.
  split; nia.
Qed.

Lemma exact_ceiling_unique (a b c : Z) :
  0 < b -> (c - 1) * b < a <= c * b -> exact_ceiling a b = c.
Proof.
  intros Hb H. destruct (exact_ceiling_bounds a b Hb) as [H1 H2]. nia.
Qed.

(** Rounding to the nearest integer is off by a half at most. *)
Lemma round_half_even_near (n d : Z) :
  0 < d ->
  2 * n - d <= 2 * StaticPaginator.round_half_even n d * d <= 2 * n + d.
Proof.
  intros Hd. unfold StaticPaginator.round_half_even.
  pose proof (Z.div_mod n d ltac:(lia)) as Hdm.
  pose proof (Z.mod_pos_bound n d Hd) as Hr.
  destruct (2 * (n mod d) <? d) eqn:E1.
  - apply Z.ltb_lt in E1. nia.
  - apply Z.ltb_ge in E1. destruct (d <? 2 * (n mod d)) eqn:E2.
    + apply Z.ltb_lt in E2. nia.
    + apply Z.ltb_ge in E2. destruct (Z.even (n / d)); nia.
Qed.

(** [2 ^ floor_log2 n d] does not exceed [n / d]. *)
Lemma floor_log2_below (n d : Z) :
  0 < n -> 0 < d ->
  let l := StaticPaginator.floor_log2 n d in
  (0 <= l -> d * 2 ^ l <= n) /\ (l < 0 -> d <= n * 2 ^ (- l)).
Proof.
  intros Hn Hd. unfold StaticPaginator.floor_log2, StaticPaginator.scaled.
  pose proof (Z.log2_spec n Hn) as [Hn1 Hn2].
  pose proof (Z.log2_spec d Hd) as [Hd1 Hd2].
  pose proof (Z.log2_nonneg n) as HA. pose proof (Z.log2_nonneg d) as HB.
  set (A := Z.log2 n) in *. set (B := Z.log2 d) in *.
  rewrite <- Z.add_1_r in Hn2, Hd2.
  destruct (0 <=? A - B) eqn:Ek.
  - apply Z.leb_le in Ek. destruct (d * 2 ^ (A - B) <=? n) eqn:Et.
    + apply Z.leb_le in Et. cbn zeta. split; [intros _; exact Et | lia].
    + cbn zeta. split.
      * intros Hl.
        assert (H2 : 2 ^ A = 2 ^ (B + 1) * 2 ^ (A - B - 1))
          by (rewrite <- Z.pow_add_r by lia; f_equal; lia).
        assert (Hp : 0 < 2 ^ (A - B - 1)) by (apply Z.pow_pos_nonneg; lia).
        assert (Hlt : d * 2 ^ (A - B - 1) < 2 ^ (B + 1) * 2 ^ (A - B - 1))
          by (apply Z.mul_lt_mono_pos_r; assumption).
        lia.
      * intros Hl. replace (- (A - B - 1)) with 1 by lia.
        replace B with A in Hd2 by lia.
        rewrite Z.pow_add_r in Hd2 by lia. change (2 ^ 1) with 2 in *. lia.
  - apply Z.leb_gt in Ek. destruct (d <=? n * 2 ^ (- (A - B))) eqn:Et.
    + apply Z.leb_le in Et. cbn zeta. split; [lia | intros _; exact Et].
    + cbn zeta. split; [lia|]. intros _.
      assert (H2 : 2 ^ (B + 1) = 2 ^ A * 2 ^ (- (A - B - 1)))
        by (rewrite <- Z.pow_add_r by lia; f_equal; lia).
      assert (Hp : 0 < 2 ^ (- (A - B - 1))) by (apply Z.pow_pos_nonneg; lia).
      assert (Hle : 2 ^ A * 2 ^ (- (A - B - 1)) <= n * 2 ^ (- (A - B - 1)))
        by (apply Z.mul_le_mono_nonneg_r; lia).
      lia.
Qed.

(** Below [2 ^ 53] in the numerator and [2 ^ 1075] in the denominator the
    rounding of the quotient does not reach its ceiling. *)
Lemma round_to_double_ceil (a b : Z) :
  0 < a < 2 ^ 53 -> 0 < b < 2 ^ 1075 ->
  exists m e,
    StaticPaginator.round_to_double a b = (m, e) /\ e <= 0 /\
    (e = 0 -> m < 2 ^ 53) /\
    StaticPaginator.math_ceil (StaticPaginator.mkDouble m e)
    = exact_ceiling a b.
Proof.
  intros Ha Hb. unfold StaticPaginator.round_to_double.
  destruct (floor_log2_below a b ltac:(lia) ltac:(lia)) as [Hl1 Hl2].
  set (l := StaticPaginator.floor_log2 a b) in *.
  assert (Hl : l <= 52).
  { destruct (Z_le_gt_dec l 52) as [H|H]; [exact H|exfalso].
    specialize (Hl1 ltac:(lia)).
    assert (H53 : 2 ^ 53 <= 2 ^ l) by (apply Z.pow_le_mono_r; lia).
    assert (Hp : 0 < 2 ^ l) by (apply Z.pow_pos_nonneg; lia).
    nia. }
  set (e := Z.max (l - 52) (-1074)).
  assert (He : -1074 <= e <= 0) by (unfold e; lia).
  set (s := - e).
  assert (HP : 0 < 2 ^ s) by (apply Z.pow_pos_nonneg; lia).
  assert (Hbs : b < 2 * 2 ^ s).
  { replace (2 * 2 ^ s) with (2 ^ (s + 1))
      by (rewrite Z.pow_add_r by lia; change (2 ^ 1) with 2; lia).
    destruct (Z_le_gt_dec (-1074) (l - 52)) as [Hn|Hsub].
    - assert (Hs : s + 1 = 53 - l) by (unfold s, e; lia). rewrite Hs.
      destruct (Z_le_gt_dec 0 l) as [H0|H0].
      + specialize (Hl1 H0).
        assert (H2 : 2 ^ 53 = 2 ^ (53 - l) * 2 ^ l)
          by (rewrite <- Z.pow_add_r by lia; f_equal; lia).
        assert (Hp : 0 < 2 ^ l) by (apply Z.pow_pos_nonneg; lia).
        nia.
      + specialize (Hl2 ltac:(lia)).
        assert (H2 : 2 ^ (53 - l) = 2 ^ 53 * 2 ^ (- l))
          by (rewrite <- Z.pow_add_r by lia; f_equal; lia).
        assert (Hp : 0 < 2 ^ (- l)) by (apply Z.pow_pos_nonneg; lia).
        nia.
    - assert (Hs : s + 1 = 1075) by (unfold s, e; lia). rewrite Hs. lia. }
  destruct (exact_ceiling_bounds a b ltac:(lia)) as [Hc1 Hc2].
  set (c := exact_ceiling a b) in *.
  assert (Hca : c <= a) by nia.
  assert (Hmain : forall m,
            2 * (a * 2 ^ s) - b <= 2 * m * b <= 2 * (a * 2 ^ s) + b ->
            (c - 1) * 2 ^ s < m <= c * 2 ^ s).
  { intros m Hm. set (P := 2 ^ s) in *.
    assert (H1 : a * P <= c * b * P) by (apply Z.mul_le_mono_nonneg_r; lia).
    assert (H2 : ((c - 1) * b + 1) * P <= a * P)
      by (apply Z.mul_le_mono_nonneg_r; lia).
    split.
    - apply Z.nle_gt. intros Hle.
      assert (H3 : m * b <= (c - 1) * P * b)
        by (apply Z.mul_le_mono_nonneg_r; lia).
      nia.
    - apply Z.nlt_ge. intros Hlt.
      assert (H3 : (c * P + 1) * b <= m * b)
        by (apply Z.mul_le_mono_nonneg_r; lia).
      nia. }
  unfold StaticPaginator.scaled. destruct (0 <=? e) eqn:E0.
  - apply Z.leb_le in E0. assert (e = 0) as He0 by lia.
    assert (Hs0 : s = 0) by (unfold s; lia).
    rewrite He0. change (2 ^ 0) with 1. rewrite Z.mul_1_r.
    exists (StaticPaginator.round_half_even a b), 0. split; [reflexivity|].
    pose proof (round_half_even_near a b ltac:(lia)) as Hnear.
    specialize (Hmain (StaticPaginator.round_half_even a b)).
    rewrite Hs0 in Hmain. change (2 ^ 0) with 1 in Hmain.
    rewrite !Z.mul_1_r in Hmain. specialize (Hmain Hnear).
    split; [lia|]. split; [intros _; lia|].
    unfold StaticPaginator.math_ceil. simpl. lia.
  - apply Z.leb_gt in E0.
    exists (StaticPaginator.round_half_even (a * 2 ^ (- e)) b), e.
    split; [reflexivity|]. split; [lia|]. split; [lia|].
    pose proof (round_half_even_near (a * 2 ^ (- e)) b ltac:(lia)) as Hnear.
    fold s in Hnear. specialize (Hmain _ Hnear).
    unfold StaticPaginator.math_ceil.
    simpl StaticPaginator.mantissa. simpl StaticPaginator.exponent.
    replace (0 <=? e) with false by (symmetry; apply Z.leb_gt; lia).
    fold s. apply exact_ceiling_unique; assumption.
Qed.

(** In that range [math.ceil(a / b)] is the exact ceiling. *)
Lemma true_div_ceil (a b : Z) :
  0 <= a < 2 ^ 53 -> 0 < b < 2 ^ 1075 ->
  exists x, StaticPaginator.true_div a b = Ok x /\
            StaticPaginator.math_ceil x = exact_ceiling a b.
Proof.
  intros Ha Hb. unfold StaticPaginator.true_div.
  replace (b =? 0) with false by (symmetry; apply Z.eqb_neq; lia).
  destruct (a =? 0) eqn:Ea.
  - apply Z.eqb_eq in Ea. subst a. eexists. split; [reflexivity|].
    reflexivity.
  - apply Z.eqb_neq in Ea.
    rewrite (Z.abs_eq a), (Z.abs_eq b) by lia.
    destruct (round_to_double_ceil a b ltac:(lia) Hb)
      as [m [e [Hr [He [Hm Hc]]]]].
    rewrite Hr.
    assert (Hov : (0 <=? e) && (2 ^ 1024 <=? m * 2 ^ e) = false).
    { destruct (0 <=? e) eqn:E0; [|reflexivity].
      apply Z.leb_le in E0. assert (e = 0) as -> by lia.
      specialize (Hm eq_refl). change (2 ^ 0) with 1. rewrite Z.mul_1_r.
      simpl andb. apply Z.leb_gt.
      assert (2 ^ 53 < 2 ^ 1024) by (apply Z.pow_lt_mono_r; lia). lia. }
    rewrite Hov.
    rewrite (Z.sgn_pos a), (Z.sgn_pos b) by lia.
    eexists. split; [reflexivity|].
    rewrite Z.mul_1_l. exact Hc.
Qed.

(** The constructor in that range: it succeeds, with the exact ceiling as
    page count. *)
Lemma static_paginator_init (lines_ : list string) (line_limit_ : Z)
    (base_embed_ : option StaticPaginator.Embed) :
  0 < line_limit_ < 2 ^ 1075 ->
  Z.of_nat (List.length lines_) < 2 ^ 53 ->
  StaticPaginator.__init__ lines_ line_limit_ base_embed_ =
  let base := match base_embed_ with
              | Some e => e
              | None => StaticPaginator.empty_embed
              end in
  Ok (StaticPaginator.mk lines_ line_limit_ base
        (Paginator.__init__
           (StaticPaginator.page_callback lines_ line_limit_ base)
           (exact_ceiling (Z.of_nat (List.length lines_)) line_limit_))).
Proof.
  intros Hl Hlen. unfold StaticPaginator.__init__.
  destruct (true_div_ceil (Z.of_nat (List.length lines_)) line_limit_
              ltac:(lia) Hl) as [x [Hx Hc]].
  rewrite Hx, Hc. reflexivity.
Qed.

Lemma slice_page_nth (A : Type) (xs : list A) (limit N : Z) (i : nat) :
  0 < limit -> 1 <= N ->
  nth_error (StaticPaginator.slice xs ((N - 1) * limit) (N * limit)) i =
  if Z.of_nat i <? limit
  then nth_error xs (Z.to_nat ((N - 1) * limit) + i)
  else None.
Proof.
  intros Hl HN. unfold StaticPaginator.slice, StaticPaginator.clamp.
  set (len := Z.of_nat (List.length xs)).
  assert (Hm : 0 <= (N - 1) * limit) by nia.
  assert (Hn : (N - 1) * limit + limit = N * limit) by nia.
  replace ((N - 1) * limit <? 0) with false by (symmetry; apply Z.ltb_ge; lia).
  replace (N * limit <? 0) with false by (symmetry; apply Z.ltb_ge; lia).
  rewrite nth_error_firstn, nth_error_skipn.
  destruct (Z.of_nat i <? limit) eqn:Hi;
    destruct (Nat.ltb i _) eqn:Hlt.
  - f_equal. apply Nat.ltb_lt in Hlt. lia.
  - symmetry. apply nth_error_None.
    apply Nat.ltb_ge in Hlt. apply Z.ltb_lt in Hi. unfold len in *. lia.
  - apply Nat.ltb_lt in Hlt. apply Z.ltb_ge in Hi. lia.
  - reflexivity.
Qed.

(** C7, as amended.  For every list of fewer than [2 ^ 53] lines and every
    positive [line_limit] below [2 ^ 1075], the constructor succeeds, its
    page count is the ceiling of [len(lines) / line_limit] (the least [n]
    with [len <= n * line_limit]), and page [N] renders the template with its
    description replaced by the newline-join of the slice
    [lines[(N-1)*line_limit : N*line_limit]]: the lines of the slice with one
    newline between neighbours.  For [N >= 1] the slice holds exactly the
    lines at the indices from [(N-1)*line_limit] up to, not including,
    [N*line_limit].  With 32 lines and a limit of 15 there are 3 pages and
    page 3 renders [lines[30:32]], 2 lines. *)
Theorem static_paginator_pages_and_slices (lines_ : list string)
    (line_limit_ : Z) (base_embed_ : option StaticPaginator.Embed) :
  0 < line_limit_ < 2 ^ 1075 ->
  Z.of_nat (List.length lines_) < 2 ^ 53 ->
  exists sp,
    StaticPaginator.__init__ lines_ line_limit_ base_embed_ = Ok sp /\
    let len := Z.of_nat (List.length lines_) in
    let n := Paginator.pages (StaticPaginator.view sp) in
    n = exact_ceiling len line_limit_ /\
    (len <= n * line_limit_ /\ (n - 1) * line_limit_ < len) /\
    (forall N,
       Paginator.callback (StaticPaginator.view sp) N =
       [StaticPaginator.mkEmbed
          (StaticPaginator.title (StaticPaginator.base_embed sp))
          (Some (StaticPaginator.join_lines
                   (StaticPaginator.slice lines_ ((N - 1) * line_limit_)
                                          (N * line_limit_))))]) /\
    (StaticPaginator.join_lines [] = "" /\
     (forall x, StaticPaginator.join_lines [x] = x) /\
     (forall x y rest,
        StaticPaginator.join_lines (x :: y :: rest)
        = (x ++ String "010" (StaticPaginator.join_lines (y :: rest)))%string)) /\
    (forall N i, 1 <= N ->
       nth_error (StaticPaginator.slice lines_ ((N - 1) * line_limit_)
                                        (N * line_limit_)) i =
       if Z.of_nat i <? line_limit_
       then nth_error lines_ (Z.to_nat ((N - 1) * line_limit_) + i)
       else None) /\
    (List.length lines_ = 32%nat -> line_limit_ = 15 ->
     n = 3 /\
     exists x y,
       skipn 30 lines_ = [x; y] /\
       StaticPaginator.slice lines_ ((3 - 1) * line_limit_) (3 * line_limit_)
       = [x; y] /\
       Paginator.callback (StaticPaginator.view sp) 3 =
       [StaticPaginator.mkEmbed
          (StaticPaginator.title (StaticPaginator.base_embed sp))
          (Some (x ++ String "010" y)%string)]).
Proof.
  intros Hl Hlen53. rewrite static_paginator_init by assumption.
  eexists. split; [reflexivity|]. cbn zeta. simpl StaticPaginator.view.
  simpl Paginator.pages. simpl Paginator.callback.
  simpl StaticPaginator.base_embed.
  split; [reflexivity|]. split; [apply exact_ceiling_bounds; lia|].
  split; [intros N; reflexivity|].
  split; [repeat split|].
  split; [intros N i HN; apply slice_page_nth; [lia | assumption]|].
  intros Hlen ->. split; [rewrite Hlen; reflexivity|].
  assert (Hslice : StaticPaginator.slice lines_ ((3 - 1) * 15) (3 * 15)
                   = skipn 30 lines_).
  { unfold StaticPaginator.slice, StaticPaginator.clamp. rewrite Hlen.
    change (firstn 2 (skipn 30 lines_) = skipn 30 lines_).
    apply firstn_all2. rewrite length_skipn, Hlen. simpl. lia. }
  assert (Hlen2 : List.length (skipn 30 lines_) = 2%nat)
    by (rewrite length_skipn, Hlen; reflexivity).
  destruct (skipn 30 lines_) as [|x [|y [|z rest]]] eqn:Hskip;
    try discriminate Hlen2.
  exists x, y. split; [reflexivity|]. split; [exact Hslice|].
  unfold StaticPaginator.page_callback. rewrite Hslice. reflexivity.
Qed.

(** C7, the claim as stated fails: a line limit so large that the float
    quotient [len(lines) / line_limit] rounds to [0.0] gives a paginator
    without pages, where the ceiling of the exact quotient is 1. *)
Lemma static_paginator_pages_underflow :
  ~ (forall (lines_ : list string) (line_limit_ : Z)
            (base_embed_ : option StaticPaginator.Embed),
       0 < line_limit_ ->
       exists sp,
         StaticPaginator.__init__ lines_ line_limit_ base_embed_ = Ok sp /\
         Paginator.pages (StaticPaginator.view sp)
         = exact_ceiling (Z.of_nat (List.length lines_)) line_limit_).
Proof.
  intros H.
  destruct (H ["a"] (2 ^ 1075) None) as [sp [Hsp Hpages]].
  - apply Z.pow_pos_nonneg; lia.
  - vm_compute in Hsp. injection Hsp as <-.
    vm_compute in Hpages. discriminate Hpages.
Qed.

(** C3.  Duty-on with a requested shift type.  On a guild whose settings have
    no [shift_types] entry the request does not get the 400 answer: the
    membership test finds [available_shift_types] unbound and the handler
    dies with the name error.  On a guild with configured shift types the
    validation works: an unknown type is answered with 400 and a configured
    one opens a shift tagged with it. *)
Theorem duty_on_shift_type_validation :
  POST_duty_on (Some "tok-abc") Example.ident (Example.duty_body "patrol") 2000
               Example.bot_unconfigured
  = (Raise (UnboundLocalError "available_shift_types"),
     Example.bot_unconfigured)
  /\
  POST_duty_on (Some "tok-abc") Example.ident (Example.duty_body "traffic") 2000
               Example.bot
  = (Raise (HTTPException 400 "Invalid shift type"), Example.bot)
  /\
  POST_duty_on (Some "tok-abc") Example.ident (Example.duty_body "patrol") 2000
               Example.bot
  = (Ok (VDict [("status", VStr "success"); ("member", VInt 501);
               ("shift_type", VStr "patrol")]),
     Example.bot_on_duty).
Proof. repeat split; vm_compute; reflexivity. Qed.

(** C4.  Duty-off with the static bypass token, for which the store holds no
    token document: with the guild supplied in the body and the officer on
    duty in it, the handler does not close the shift; it raises the attribute
    error on the raw guild value.  Whatever the body, such a request ends in
    an exception and leaves the ledger as it was. *)
Theorem duty_off_static_token_fails :
  POST_duty_off Example.cfg (Some "static-secret") Example.duty_off_body 2000
                Example.bot_on_duty
  = (Raise (AttributeError "fetch_member"), Example.bot_on_duty)
  /\
  forall (json : value) (now : Z),
    exists e : exn,
      POST_duty_off Example.cfg (Some "static-secret") json now
                    Example.bot_on_duty
      = (Raise e, Example.bot_on_duty).
Proof.
  split; [vm_compute; reflexivity|].
  intros json now. eexists.
  apply POST_duty_off_without_token; reflexivity.
Qed.

(** ** The theorems at concrete inputs *)

Lemma example_tokens_unique : tokens_unique (api_tokens Example.bot).
Proof.
  intros d1 d2 H1 H2 Ht. simpl in H1, H2.
  destruct H1 as [<-|[<-|[]]], H2 as [<-|[<-|[]]];
    solve [reflexivity | discriminate Ht].
Defined.

Lemma validate_authorization_iff_witness :
  exists b : bool,
    validate_authorization Example.cfg "tok-abc" false 2000 Example.bot
    = (Ok b, Example.bot) /\
    (b = true <->
       (false = false /\ "tok-abc" = API_STATIC_TOKEN Example.cfg) \/
       (exists d, In d (api_tokens Example.bot) /\ token d = "tok-abc" /\
                  2000 < expires_at d)).
Proof.
  apply (validate_authorization_iff Example.cfg Example.bot "tok-abc" false
           2000).
  exact example_tokens_unique.
Defined.

Lemma GET_get_token_idempotent_witness :
  GET_get_token Example.cfg (Some "private-key") "10.0.0.1" "fresh"
                2000 2000 2000 Example.bot
  = (Ok Example.tok, Example.bot)
  /\
  GET_get_token Example.cfg (Some "private-key") "10.0.0.2" "fresh"
                2000 2000 2000 Example.bot
  = (Ok (issued "10.0.0.2" "fresh" 2000 2000),
     set_api_tokens [Example.tok; issued "10.0.0.2" "fresh" 2000 2000]
                    Example.bot).
Proof.
  split.
  - apply (GET_get_token_idempotent Example.cfg Example.bot "10.0.0.1" "fresh"
             2000 2000 2000).
    + reflexivity.
    + simpl. lia.
  - apply (GET_get_token_idempotent Example.cfg Example.bot "10.0.0.2" "fresh"
             2000 2000 2000).
    intros d Hd. vm_compute in Hd. injection Hd as <-. simpl. lia.
Defined.

Lemma expiry_boundary_disagreement_witness :
  GET_get_token Example.cfg (Some "private-key") "10.0.0.1" "fresh"
                2593000 2593000 2593000 Example.bot
  = (Ok Example.tok, Example.bot) /\
  validate_authorization Example.cfg "tok-abc" false 2593000 Example.bot
  = (Ok false, Example.bot).
Proof.
  apply (expiry_boundary_disagreement Example.cfg Example.bot "10.0.0.1"
           "fresh" Example.tok 2593000 2593000 2593000 false).
  - exact example_tokens_unique.
  - reflexivity.
  - reflexivity.
  - right. simpl. discriminate.
Defined.

Lemma get_discord_get_fivem_result_witness :
  POST_get_discord (Some "tok-abc") Example.ident 2000 Example.bot
  = (Ok VNone, Example.bot) /\
  POST_get_fivem (Some "tok-abc") (VDict [("discord_id", VInt 501)]) 2000
                 Example.bot
  = (Ok VNone, Example.bot) /\
  POST_get_fivem (Some "tok-abc") (VDict [("discord_id", VInt 999)]) 2000
                 Example.bot
  = (Ok (VDict [("status", VStr "failed")]), Example.bot).
Proof.
  destruct (get_discord_get_fivem_result Example.bot (Some "tok-abc") 2000
              Example.tok "link-1" Example.link)
    as [_ [Hd Hf]]; try reflexivity.
  - simpl. lia.
  - split; [apply (Hd Example.ident); reflexivity|].
    split.
    + apply (Hf (VDict [("discord_id", VInt 501)]) (VInt 501)); reflexivity.
    + apply (Hf (VDict [("discord_id", VInt 999)]) (VInt 999)); reflexivity.
Defined.

Lemma POST_update_guild_settings_unbound_witness :
  POST_update_guild_settings (fun _ => None)
    (VDict [("guild", VDict [("id", VInt 77)]); ("prefix", VStr "!")])
    Example.bot
  = (Raise (UnboundLocalError "settings"), Example.bot).
Proof.
  apply (POST_update_guild_settings_unbound (fun _ => None) Example.bot
           [("guild", VDict [("id", VInt 77)]); ("prefix", VStr "!")]).
  intros k v Hin Hk. simpl in Hin.
  destruct Hin as [Heq|[Heq|[]]]; injection Heq as <- <-.
  - exfalso. apply Hk. reflexivity.
  - reflexivity.
Defined.


Lemma paginator_page_in_bounds_witness :
  1 <= Paginator.page
         (Paginator.presses (Paginator.__init__ (fun p : Z => p) 3)
            [Paginator.Next; Paginator.Next; Paginator.Next; Paginator.Next;
             Paginator.Back])
    <= 3.
Proof.
  apply (paginator_page_in_bounds Z (fun p : Z => p) 3
           [Paginator.Next; Paginator.Next; Paginator.Next; Paginator.Next;
            Paginator.Back]).
  lia.
Defined.

Lemma static_paginator_pages_and_slices_witness :
  exists sp,
    StaticPaginator.__init__ Example.thirty_two_lines 15 None = Ok sp /\
    Paginator.pages (StaticPaginator.view sp) = 3 /\
    StaticPaginator.slice Example.thirty_two_lines 30 45 = ["line"; "line"].
Proof.
  destruct (static_paginator_pages_and_slices Example.thirty_two_lines 15 None)
    as [sp [Hsp [_ [_ [_ [_ [_ Hex]]]]]]].
  - split; reflexivity.
  - reflexivity.
  - exists sp. split; [exact Hsp|].
    destruct Hex as [Hn [x [y [Hskip [Hslice _]]]]];
      [reflexivity | reflexivity |].
    split; [exact Hn|].
    change (StaticPaginator.slice Example.thirty_two_lines 30 45 = skipn 30 Example.thirty_two_lines).
    rewrite Hskip. exact Hslice.
Defined.

(** * Further properties *)

(** ** Route registration *)

Lemma startswith_split (s p : string) :
  Routes.startswith s p = true -> s = (p ++ Routes.drop (String.length p) s)%string.
Proof.
  revert s. induction p as [|a p IH]; intros s H; simpl in *.
  - reflexivity.
  - destruct s as [|b s]; [discriminate|].
    apply andb_true_iff in H. destruct H as [Hab Hs].
    apply Ascii.eqb_eq in Hab. subst b. simpl. f_equal. apply IH. exact Hs.
Qed.

(** A name passes the test of the loop exactly when it is a verb, an
    underscore and a remainder; its route is then the remainder as path and
    the verb as method. *)
Lemma is_route_inv (i : string) :
  Routes.is_route i = true ->
  exists verb rest,
    In verb verbs /\ i = (verb ++ "_" ++ rest)%string /\
    Routes.route_of i = Routes.mkRoute ("/" ++ rest) i [verb].
Proof.
  unfold Routes.is_route. intros H.
  apply andb_true_iff in H. destruct H as [H _].
  apply existsb_exists in H. destruct H as [a [Hin Ha]].
  apply startswith_split in Ha.
  set (rest := Routes.drop (String.length a) i) in Ha. clearbody rest.
  simpl in Hin.
  destruct Hin as [<-|[<-|[<-|[<-|[]]]]]; subst i.
  - exists "GET", rest. split; [simpl; auto|]. split; reflexivity.
  - exists "POST", rest. split; [simpl; auto|]. split; reflexivity.
  - exists "PATCH", rest. split; [simpl; auto|]. split; reflexivity.
  - exists "DELETE", rest. split; [simpl; auto|]. split; reflexivity.
Qed.

Lemma is_route_verb (verb rest : string) :
  In verb verbs ->
  Routes.is_route (verb ++ "_" ++ rest) = true /\
  Routes.route_of (verb ++ "_" ++ rest)
  = Routes.mkRoute ("/" ++ rest) (verb ++ "_" ++ rest) [verb].
Proof.
  simpl. intros [<-|[<-|[<-|[<-|[]]]]]; split; reflexivity.
Qed.

(** X1.  The constructor registers exactly one route for every attribute name
    made of one of the four verbs, an underscore and a remainder: its path is
    ["/"] followed by the remainder (which may itself contain underscores),
    its only method is the verb, and its endpoint is the method of that name.
    Every other name is passed over. *)
Theorem register_routes (names : list string) (r : Routes.Route) :
  In r (Routes.register names) <->
  exists verb rest,
    In verb verbs /\ In (verb ++ "_" ++ rest)%string names /\
    r = Routes.mkRoute ("/" ++ rest) (verb ++ "_" ++ rest) [verb].
Proof.
  unfold Routes.register. rewrite in_map_iff. split.
  - intros [i [Hr Hin]]. apply filter_In in Hin. destruct Hin as [Hin Hi].
    destruct (is_route_inv i Hi) as [verb [rest [Hv [Heq Hroute]]]].
    exists verb, rest. subst i. rewrite Hroute in Hr. auto.
  - intros [verb [rest [Hv [Hin ->]]]].
    destruct (is_route_verb verb rest Hv) as [Hi Hroute].
    exists (verb ++ "_" ++ rest)%string. split; [exact Hroute|].
    apply filter_In. split; assumption.
Qed.

(** X2.  Two registered handlers never share a path and method: the method
    name can be read back from the route. *)
Theorem routes_do_not_collide (i j : string) :
  Routes.is_route i = true ->
  Routes.is_route j = true ->
  Routes.path (Routes.route_of i) = Routes.path (Routes.route_of j) ->
  Routes.methods (Routes.route_of i) = Routes.methods (Routes.route_of j) ->
  i = j.
Proof.
  intros Hi Hj Hp Hm.
  destruct (is_route_inv i Hi) as [v [r [_ [-> Ri]]]].
  destruct (is_route_inv j Hj) as [w [s [_ [-> Rj]]]].
  rewrite Ri, Rj in Hp, Hm. simpl in Hp, Hm.
  injection Hp as ->. injection Hm as ->. reflexivity.
Qed.

Lemma routes_do_not_collide_witness :
  "GET_get_token" = "GET_get_token".
Proof.
  apply (routes_do_not_collide "GET_get_token" "GET_get_token");
    reflexivity.
Defined.

(** ** Tokens: issuing, reading back, linking *)

(** X3.  What [GET_get_token] hands out is what [GET_get_current_token]
    answers for the same client afterwards, whether the token was reused or
    newly issued. *)
Theorem current_token_after_issue (cfg : Config) (bot bot' : Bot)
    (authorization : option string) (host generated : string)
    (now_check now_created now_expiry : Z) (d : TokenDoc) :
  GET_get_token cfg authorization host generated
                now_check now_created now_expiry bot = (Ok d, bot') ->
  GET_get_current_token host bot' = (Ok d, bot').
Proof.
  intros H. unfold GET_get_token in H. unfold GET_get_current_token.
  run_monad.
  match type of H with context [if ?c then _ else _] => passed H c end.
  destruct (find_token_by_id host (api_tokens bot)) as [t|] eqn:Hf.
  - passed H (negb (now_check >? expires_at t)).
    + injection H as <- <-. rewrite Hf. reflexivity.
    + injection H as <- <-. simpl api_tokens.
      rewrite (find_upsert_token
                 (mkTokenDoc host generated now_created
                             (now_expiry + 2592000) None)).
      reflexivity.
  - injection H as <- <-. simpl api_tokens.
    rewrite (find_upsert_token
               (mkTokenDoc host generated now_created
                           (now_expiry + 2592000) None)).
    reflexivity.
Qed.

Lemma current_token_after_issue_witness :
  GET_get_current_token "10.0.0.9" 
    (set_api_tokens
       (upsert_token (issued "10.0.0.9" "fresh" 2000 2000)
                     (api_tokens Example.bot)) Example.bot)
  = (Ok (issued "10.0.0.9" "fresh" 2000 2000),
     set_api_tokens
       (upsert_token (issued "10.0.0.9" "fresh" 2000 2000)
                     (api_tokens Example.bot)) Example.bot).
Proof.
  apply (current_token_after_issue Example.cfg Example.bot _
           (Some "private-key") "10.0.0.9" "fresh" 2000 2000 2000).
  reflexivity.
Defined.

Lemma GET_get_link_string_run (authorization : option string) (now : Z)
    (bot : Bot) :
  header_missing authorization = false ->
  GET_get_link_string authorization now bot =
  match find_token (header authorization) (api_tokens bot) with
  | Some tok =>
      if now >? expires_at tok
      then (Raise (HTTPException 401 "Invalid authorization"), bot)
      else (Ok tok, bot)
  | None => (Raise (HTTPException 401 "Invalid authorization"), bot)
  end.
Proof.
  intros Hh. unfold GET_get_link_string. run_monad. rewrite Hh.
  destruct (find_token (header authorization) (api_tokens bot)) as [tok|];
    [|reflexivity].
  destruct (now >? expires_at tok); reflexivity.
Qed.

(** X4.  With the static bypass disabled, whatever [validate_authorization]
    accepts, [GET_get_link_string] answers with the document of that token;
    and a token the query answers for is accepted by the validation at every
    time but the expiry instant itself. *)
Theorem get_link_string_agrees_with_validation (cfg : Config) (bot : Bot)
    (authorization : option string) (now : Z) :
  header_missing authorization = false ->
  (validate_authorization cfg (header authorization) true now bot
   = (Ok true, bot) ->
   exists tok, GET_get_link_string authorization now bot = (Ok tok, bot) /\
               token tok = header authorization /\ now < expires_at tok)
  /\
  (forall tok bot',
     GET_get_link_string authorization now bot = (Ok tok, bot') ->
     now <> expires_at tok ->
     validate_authorization cfg (header authorization) true now bot
     = (Ok true, bot)).
Proof.
  intros Hh. rewrite validate_authorization_run.
  rewrite (GET_get_link_string_run _ _ _ Hh). simpl negb. simpl andb.
  simpl orb.
  destruct (find_token (header authorization) (api_tokens bot)) as [tok|]
    eqn:Hf.
  - split.
    + intros H. injection H as H. apply Z.ltb_lt in H.
      exists tok. rewrite gtb_false_of_le by lia.
      apply find_token_In in Hf. destruct Hf as [_ Ht]. auto.
    + intros tok' bot' H Hne.
      destruct (now >? expires_at tok) eqn:Hgt; [discriminate|].
      injection H as <- <-.
      rewrite Z.gtb_ltb in Hgt. apply Z.ltb_ge in Hgt.
      replace (now <? expires_at tok) with true
        by (symmetry; apply Z.ltb_lt; lia).
      reflexivity.
  - split; [discriminate|]. intros tok' bot' H. discriminate.
Qed.

Lemma get_link_string_agrees_with_validation_witness :
  exists tok,
    GET_get_link_string (Some "tok-abc") 2000 Example.bot
    = (Ok tok, Example.bot) /\
    token tok = "tok-abc" /\ 2000 < expires_at tok.
Proof.
  apply (get_link_string_agrees_with_validation Example.cfg Example.bot
           (Some "tok-abc") 2000); reflexivity.
Defined.

(** X5.  Linking needs a stored token: a header that no token document
    carries is turned away with 401, and that includes the static bypass
    secret, which [POST_authorize_token] validates with the bypass
    disabled. *)
Theorem authorize_token_needs_stored_token (cfg : Config) (bot : Bot)
    (authorization x_link_string : option string) (now : Z) :
  header_missing authorization = false ->
  find_token (header authorization) (api_tokens bot) = None ->
  POST_authorize_token cfg authorization x_link_string now bot
  = (Raise (HTTPException 401 "Invalid or expired authorization."), bot).
Proof.
  intros Hh Hf. unfold POST_authorize_token. run_monad.
  rewrite Hh, validate_authorization_run, Hf. reflexivity.
Qed.

Lemma authorize_token_needs_stored_token_witness :
  POST_authorize_token Example.cfg (Some "static-secret") (Some "link-1") 2000
                       Example.bot
  = (Raise (HTTPException 401 "Invalid or expired authorization."),
     Example.bot).
Proof.
  apply (authorize_token_needs_stored_token Example.cfg Example.bot
           (Some "static-secret") (Some "link-1") 2000); reflexivity.
Defined.

Lemma find_update_token (t : string) (d d' : TokenDoc)
    (docs : list TokenDoc) :
  find_token t docs = Some d -> token d' = t -> tok_id d' = tok_id d ->
  find_token t (update_token_by_id d' docs) = Some d'.
Proof.
  unfold find_token. intros Hf Ht Hid.
  induction docs as [|x docs IH]; simpl in *; [discriminate|].
  destruct (token x =? t)%string eqn:Hx.
  - injection Hf as ->. rewrite Hid, String.eqb_refl. simpl.
    rewrite Ht, String.eqb_refl. reflexivity.
  - destruct (tok_id x =? tok_id d')%string; simpl.
    + rewrite Ht, String.eqb_refl. reflexivity.
    + rewrite Hx. apply IH. exact Hf.
Qed.

Lemma find_update_link_string (id : string) (d : LinkStringDoc)
    (docs : list LinkStringDoc) :
  find_link_string id docs = Some d ->
  find_link_string id (update_link_string_by_id d docs) = Some d.
Proof.
  unfold find_link_string. intros Hf.
  induction docs as [|x docs IH]; simpl in *; [discriminate|].
  destruct (ls_id x =? id)%string eqn:Hx.
  - injection Hf as ->. rewrite String.eqb_refl. simpl. rewrite Hx.
    reflexivity.
  - assert (Hd : ls_id d = id).
    { apply find_some in Hf. destruct Hf as [_ Hf].
      apply String.eqb_eq in Hf. exact Hf. }
    rewrite Hd, Hx. simpl. rewrite Hx. apply IH. exact Hf.
Qed.

(** X6.  After a successful [POST_authorize_token] the token is linked: the
    link-string query answers with a token document whose [link_string] is
    the presented link string, that link string is found in its store, and
    the returned object names the token, the client address of the token and
    the link string. *)
Theorem authorize_token_links (cfg : Config) (bot bot' : Bot)
    (authorization x_link_string : option string) (now : Z)
    (r : AuthorizedLink) :
  POST_authorize_token cfg authorization x_link_string now bot = (Ok r, bot') ->
  exists tok,
    GET_get_link_string authorization now bot' = (Ok tok, bot') /\
    link_string tok = Some (header x_link_string) /\
    find_link_string (header x_link_string) (link_strings bot')
    = Some (al_doc r) /\
    al_token r = header authorization /\
    al_ip r = tok_id tok /\
    al_link_string r = header x_link_string.
Proof.
  intros H. unfold POST_authorize_token in H. run_monad.
  passed H (header_missing authorization).
  rewrite validate_authorization_run in H. cbn [negb andb orb] in H.
  destruct (find_token (header authorization) (api_tokens bot)) as [t|] eqn:Hf;
    run_monad; cbn [negb] in H; [|discriminate H].
  passed H (now <? expires_at t).
  passed H (header_missing x_link_string).
  destruct (find_link_string (header x_link_string) (link_strings bot))
    as [ls|] eqn:Hl; [|discriminate H].
  rewrite Hf in H. injection H as <- <-.
  assert (Hid : ls_id ls = header x_link_string).
  { unfold find_link_string in Hl. apply find_some in Hl.
    destruct Hl as [_ Hl]. apply String.eqb_eq in Hl. exact Hl. }
  assert (Ht : token t = header authorization)
    by (apply find_token_In in Hf; tauto).
  exists (with_link_string t (ls_id ls)).
  rewrite GET_get_link_string_run by assumption. simpl api_tokens.
  rewrite (find_update_token _ t (with_link_string t (ls_id ls)) _ Hf Ht
             eq_refl).
  simpl expires_at.
  match goal with Hlt : (now <? expires_at t) = true |- _ =>
    apply Z.ltb_lt in Hlt; rewrite gtb_false_of_le by lia end.
  simpl. rewrite Hid.
  repeat split; try reflexivity.
  apply find_update_link_string. exact Hl.
Qed.

Lemma authorize_token_links_witness :
  exists tok,
    GET_get_link_string (Some "tok-old") 100
      (set_api_tokens
         [Example.tok; with_link_string Example.stale "link-1"] Example.bot)
    = (Ok tok,
       set_api_tokens
         [Example.tok; with_link_string Example.stale "link-1"] Example.bot) /\
    link_string tok = Some "link-1".
Proof.
  destruct (authorize_token_links Example.cfg Example.bot
              (set_api_tokens
                 [Example.tok; with_link_string Example.stale "link-1"]
                 Example.bot)
              (Some "tok-old") (Some "link-1") 100
              (mkAuthorizedLink Example.link "tok-old" "10.0.0.2" "link-1"))
    as [tok [H1 [H2 _]]]; [vm_compute; reflexivity|].
  exists tok. split; assumption.
Defined.

(** X7.  A token that is stored and not expired but was never linked (as
    every token is when [GET_get_token] has just issued it) makes the handlers
    that follow the token to its link string fail with a [KeyError] instead
    of an HTTP error. *)
Theorem unlinked_token_key_error (cfg : Config) (bot : Bot)
    (authorization : option string) (tok : TokenDoc) (now : Z) :
  header_missing authorization = false ->
  find_token (header authorization) (api_tokens bot) = Some tok ->
  now < expires_at tok ->
  link_string tok = None ->
  (forall identification json,
     POST_duty_on authorization identification json now bot
     = (Raise (KeyError "link_string"), bot)) /\
  (forall json,
     POST_duty_off cfg authorization json now bot
     = (Raise (KeyError "link_string"), bot)) /\
  (forall body,
     POST_get_discord authorization body now bot
     = (Raise (KeyError "link_string"), bot)) /\
  (forall json,
     POST_get_fivem authorization json now bot
     = (Raise (KeyError "link_string"), bot)).
Proof.
  intros Hh Hf Hlt Hl.
  assert (Hgt : (now >? expires_at tok) = false)
    by (apply gtb_false_of_le; lia).
  assert (Hv : validate_authorization cfg (header authorization) false now bot
               = (Ok true, bot)).
  { rewrite validate_authorization_run, Hf.
    replace (now <? expires_at tok) with true
      by (symmetry; apply Z.ltb_lt; exact Hlt).
    rewrite orb_true_r. reflexivity. }
  repeat split; intros.
  - unfold POST_duty_on, token_link_string. run_monad. repeat step.
    reflexivity.
  - unfold POST_duty_off, token_link_string. run_monad. repeat step.
    reflexivity.
  - unfold POST_get_discord, token_link_string. run_monad. repeat step.
    reflexivity.
  - unfold POST_get_fivem, token_link_string. run_monad. repeat step.
    reflexivity.
Qed.

Lemma unlinked_token_key_error_witness :
  POST_duty_on (Some "tok-old") Example.ident (Example.duty_body "patrol") 100
               Example.bot
  = (Raise (KeyError "link_string"), Example.bot).
Proof.
  apply (unlinked_token_key_error Example.cfg Example.bot (Some "tok-old")
           Example.stale 100); try reflexivity.
Defined.

(** ** Guild settings: reading and merging *)

(** X8.  [POST_get_guild_settings] answers a missing (or falsy) guild id with
    an [HTTPException] 400 that is returned, not raised; for the id of a
    guild the bot does not have cached it has no answer at all and raises an
    [AttributeError]. *)
Theorem get_guild_settings_edges (parse_int : string -> option Z) (bot : Bot)
    (json_data g : value) :
  get json_data "guild" = Ok g ->
  (truthy g = false ->
   POST_get_guild_settings parse_int json_data bot
   = (Ok (ReturnedHTTPException 400 "Invalid guild"), bot)) /\
  (forall n, truthy g = true -> py_int parse_int g = Ok n ->
             get_guild n (guilds bot) = None ->
   POST_get_guild_settings parse_int json_data bot
   = (Raise (AttributeError "id"), bot)).
Proof.
  intros Hg. split.
  - intros Ht. unfold POST_get_guild_settings. run_monad. repeat step.
    reflexivity.
  - intros n Ht Hn Hnone. unfold POST_get_guild_settings. run_monad.
    repeat step. reflexivity.
Qed.

Lemma get_guild_settings_edges_witness :
  POST_get_guild_settings (fun _ => None) (VDict [("guild", VInt 5)])
                          Example.bot
  = (Raise (AttributeError "id"), Example.bot) /\
  POST_get_guild_settings (fun _ => None) (VDict []) Example.bot
  = (Ok (ReturnedHTTPException 400 "Invalid guild"), Example.bot).
Proof.
  split.
  - apply (proj2 (get_guild_settings_edges (fun _ => None) Example.bot
                    (VDict [("guild", VInt 5)]) (VInt 5) eq_refl) 5);
      reflexivity.
  - apply (proj1 (get_guild_settings_edges (fun _ => None) Example.bot
                    (VDict []) VNone eq_refl)); reflexivity.
Defined.

Lemma update_loop_reads_only (guild_id_ : value) (items : dict) :
  forall (settings_ : option dict) (bot bot' : Bot)
         (r : result (Returned + option dict)),
    update_loop guild_id_ items settings_ bot = (r, bot') -> bot' = bot.
Proof.
  induction items as [|[k v] items IH]; intros settings_ bot bot' r H.
  - injection H as _ <-. reflexivity.
  - simpl in H. destruct (k =? "guild")%string; [apply (IH _ _ _ _ H)|].
    destruct v; try apply (IH _ _ _ _ H).
    run_monad.
    destruct (find_settings guild_id_ (settings bot)) as [s|];
      [|injection H as _ <-; reflexivity].
    destruct (negb (truthy (VDict s)));
      [injection H as _ <-; reflexivity|].
    destruct (assign_nested s k d);
      [apply (IH _ _ _ _ H) | injection H as _ <-; reflexivity].
Qed.

Lemma update_loop_early (guild_id_ : value) (items : dict) :
  forall (settings_ : option dict) (bot bot' : Bot) (early : Returned),
    update_loop guild_id_ items settings_ bot = (Ok (inl early), bot') ->
    early = ReturnedHTTPException 400 "Invalid guild".
Proof.
  induction items as [|[k v] items IH]; intros settings_ bot bot' early H.
  - discriminate H.
  - simpl in H. destruct (k =? "guild")%string; [apply (IH _ _ _ _ H)|].
    destruct v; try apply (IH _ _ _ _ H).
    run_monad.
    destruct (find_settings guild_id_ (settings bot)) as [s|];
      [|injection H as <- _; reflexivity].
    destruct (negb (truthy (VDict s)));
      [injection H as <- _; reflexivity|].
    destruct (assign_nested s k d); [apply (IH _ _ _ _ H) | discriminate H].
Qed.

Lemma update_loop_app (guild_id_ : value) (items more : dict) :
  forall (settings_ : option dict) (bot : Bot),
    update_loop guild_id_ (items ++ more)%list settings_ bot =
    match update_loop guild_id_ items settings_ bot with
    | (Ok (inr settings'), bot') => update_loop guild_id_ more settings' bot'
    | other => other
    end.
Proof.
  induction items as [|[k v] items IH]; intros settings_ bot.
  - reflexivity.
  - simpl. destruct (k =? "guild")%string; [apply IH|].
    destruct v; try apply IH.
    run_monad.
    destruct (find_settings guild_id_ (settings bot)) as [s|]; [|reflexivity].
    destruct (negb (truthy (VDict s))); [reflexivity|].
    destruct (assign_nested s k d); [apply IH | reflexivity].
Qed.

(** X9.  The settings a successful [POST_update_guild_settings] returns are
    the settings [POST_get_guild_settings] answers with for the same body
    afterwards. *)
Theorem update_then_get_guild_settings (parse_int : string -> option Z)
    (bot bot' : Bot) (json_data : value) (s : dict) :
  POST_update_guild_settings parse_int json_data bot
  = (Ok (ReturnedSettings s), bot') ->
  POST_get_guild_settings parse_int json_data bot'
  = (Ok (ReturnedSettings s), bot').
Proof.
  intros H. unfold POST_update_guild_settings in H.
  unfold POST_get_guild_settings. run_monad.
  destruct (get json_data "guild") as [g|] eqn:Hg; [|discriminate H].
  destruct json_data as [| | | | |d]; try discriminate Hg.
  destruct (update_loop g d None bot) as [[[early|st]|e] bot1] eqn:Hloop;
    run_monad; [| |discriminate H].
  - apply update_loop_early in Hloop. subst early. discriminate H.
  - destruct st as [s0|]; run_monad; [|discriminate H].
    passed H (truthy g).
    destruct (py_int parse_int g) as [n|]; run_monad; [|discriminate H].
    cbn [guilds settings set_settings] in *.
    destruct (get_guild n (guilds bot1)) as [gd|] eqn:Hgd; run_monad;
      [|discriminate H].
    cbn [guilds settings set_settings] in *.
    destruct (find_settings (VInt (guild_id gd))
                (update_settings_by_id s0 (settings bot1))) as [s1|] eqn:Hs;
      run_monad; [|discriminate H].
    passed H (truthy (VDict s1)).
    injection H as <- <-. cbn [negb guilds settings set_settings].
    rewrite Hgd. cbn [negb guilds settings set_settings]. rewrite Hs.
    match goal with Ht : truthy (VDict s1) = true |- _ => rewrite Ht end.
    reflexivity.
Qed.

Lemma update_then_get_guild_settings_witness :
  POST_get_guild_settings (fun _ => None) Sample.themed_body
    (set_settings [Sample.rethemed_settings] Sample.themed_bot)
  = (Ok (ReturnedSettings Sample.rethemed_settings),
     set_settings [Sample.rethemed_settings] Sample.themed_bot).
Proof.
  apply (update_then_get_guild_settings (fun _ => None) Sample.themed_bot).
  vm_compute. reflexivity.
Defined.

(** X10.  When the body carries several dict-valued keys, only the last one
    reaches the store: every such key makes the handler fetch the stored
    settings anew, so what the loop built from the keys before it is dropped,
    and the document persisted is the stored one with the last dict merged
    in. *)
Theorem update_persists_last_dict_only (parse_int : string -> option Z)
    (bot : Bot) (items : dict) (k : string) (vd : dict)
    (prev : option dict) (s s' : dict) :
  let body := (items ++ [(k, VDict vd)])%list in
  k <> "guild" ->
  update_loop (dict_get body "guild") items None bot = (Ok (inr prev), bot) ->
  find_settings (dict_get body "guild") (settings bot) = Some s ->
  truthy (VDict s) = true ->
  assign_nested s k vd = Ok s' ->
  exists r,
    POST_update_guild_settings parse_int (VDict body) bot
    = (r, set_settings (update_settings_by_id s' (settings bot)) bot).
Proof.
  intros body Hk Hloop Hs Ht Ha.
  unfold POST_update_guild_settings. simpl get. run_monad.
  unfold body at 2. rewrite update_loop_app, Hloop. simpl update_loop.
  apply String.eqb_neq in Hk. rewrite Hk. run_monad.
  rewrite Hs, Ht. cbn [negb]. rewrite Ha.
  destruct (negb (truthy (dict_get body "guild"))); [eexists; reflexivity|].
  destruct (py_int parse_int (dict_get body "guild")) as [n|];
    [|eexists; reflexivity].
  cbn [guilds settings set_settings].
  destruct (get_guild n (guilds bot)) as [gd|]; [|eexists; reflexivity].
  cbn [guilds settings set_settings].
  destruct (find_settings (VInt (guild_id gd))
              (update_settings_by_id s' (settings bot))) as [s1|];
    [|eexists; reflexivity].
  destruct (negb (truthy (VDict s1))); eexists; reflexivity.
Qed.

Lemma update_persists_last_dict_only_witness :
  exists r,
    POST_update_guild_settings (fun _ => None) Sample.two_dicts_body
                               Sample.themed_bot
    = (r, set_settings
            [[("_id", VInt 77);
              ("customisation", VDict [("prefix", VStr "!")]);
              ("extras", VDict [("motd", VStr "hello")])]]
            Sample.themed_bot).
Proof.
  apply (update_persists_last_dict_only (fun _ => None) Sample.themed_bot
           [("guild", VInt 77);
            ("customisation", VDict [("prefix", VStr "?")])]
           "extras" [("motd", VStr "hello")]
           (Some Sample.rethemed_settings) Sample.themed_settings
           [("_id", VInt 77);
            ("customisation", VDict [("prefix", VStr "!")]);
            ("extras", VDict [("motd", VStr "hello")])]).
  - discriminate.
  - reflexivity.
  - reflexivity.
  - reflexivity.
  - reflexivity.
Defined.

(** ** The paginator: buttons, the list callback, the pages of lines *)

Section PaginatorButtons.
Import Paginator.
Context {E : Type}.

Lemma press_settled (self : t E) (b : Button) :
  settled self ->
  settled (press self b) /\ pages (press self b) = pages self.
Proof.
  intros [Hb _]. unfold settled.
  destruct b; simpl; repeat split; try reflexivity; lia.
Qed.

Lemma presses_settled (bs : list Button) :
  forall self : t E,
    settled self ->
    settled (presses self bs) /\ pages (presses self bs) = pages self.
Proof.
  unfold presses. induction bs as [|b bs IH]; intros self Hs; simpl.
  - split; [exact Hs | reflexivity].
  - destruct (press_settled self b Hs) as [Hs' Hp].
    destruct (IH _ Hs') as [H1 H2]. split; [exact H1 | congruence].
Qed.

Lemma presses_callback (bs : list Button) :
  forall self : t E, callback (presses self bs) = callback self.
Proof.
  unfold presses. induction bs as [|b bs IH]; intros self; simpl.
  - reflexivity.
  - rewrite IH. destruct b; reflexivity.
Qed.

Lemma init_settled (callback_ : Z -> E) (pages_ : Z) :
  1 <= pages_ -> settled (__init__ callback_ pages_).
Proof.
  intros Hp. unfold settled. simpl. repeat split; try reflexivity; lia.
Qed.

End PaginatorButtons.

(** X11.  In a paginator built with at least one page, after any sequence of
    presses the buttons tell the truth: "Back" is disabled exactly on page 1
    and "Next" exactly on the last page, a disabled button that is pressed
    all the same leaves the cursor where it is, and an enabled one moves it
    by exactly one page. *)
Theorem buttons_reflect_bounds (E : Type) (callback_ : Z -> E) (pages_ : Z)
    (bs : list Paginator.Button) :
  1 <= pages_ ->
  let p := Paginator.presses (Paginator.__init__ callback_ pages_) bs in
  (Paginator.prev_disabled p = true <-> Paginator.page p = 1) /\
  (Paginator.next_disabled p = true <-> Paginator.page p = pages_) /\
  Paginator.page (Paginator.press p Paginator.Back)
  = (if Paginator.prev_disabled p then Paginator.page p
     else Paginator.page p - 1) /\
  Paginator.page (Paginator.press p Paginator.Next)
  = (if Paginator.next_disabled p then Paginator.page p
     else Paginator.page p + 1).
Proof.
  intros Hp p.
  destruct (presses_settled bs _ (init_settled callback_ pages_ Hp))
    as [[Hb [Hprev Hnext]] Hpages].
  fold p in Hb, Hprev, Hnext, Hpages. simpl in Hpages.
  rewrite Hprev, Hnext, Hpages in *.
  rewrite Z.leb_le, Z.geb_le. simpl Paginator.page.
  repeat split; try lia.
  - destruct (Z.leb_spec (Paginator.page p) 1); lia.
  - rewrite Hpages. destruct (Paginator.page p >=? pages_) eqn:Hge.
    + rewrite Z.geb_le in Hge. lia.
    + rewrite Z.geb_leb in Hge. apply Z.leb_gt in Hge. lia.
Qed.

Lemma buttons_reflect_bounds_witness :
  Paginator.page
    (Paginator.press
       (Paginator.presses (Paginator.__init__ (fun p : Z => p) 2)
                          [Paginator.Next])
       Paginator.Next)
  = 2.
Proof.
  destruct (buttons_reflect_bounds Z (fun p : Z => p) 2 [Paginator.Next])
    as [_ [_ [_ H]]]; [lia|].
  exact H.
Defined.

Lemma list_index_in_range (A : Type) (xs : list A) (i : Z) :
  0 <= i < Z.of_nat (List.length xs) ->
  exists x, list_index xs i = Some x /\ nth_error xs (Z.to_nat i) = Some x.
Proof.
  intros Hi. unfold list_index.
  assert (Hneg : (i <? 0) = false) by (apply Z.ltb_ge; lia).
  assert (Hge : (i >=? Z.of_nat (List.length xs)) = false)
    by (rewrite Z.geb_leb; apply Z.leb_gt; lia).
  cbv zeta. rewrite Hneg. cbv iota. rewrite Hneg, Hge. simpl orb. cbv iota.
  destruct (nth_error xs (Z.to_nat i)) as [x|] eqn:Hn.
  - exists x. split; reflexivity.
  - apply nth_error_None in Hn. lia.
Qed.

(** X12.  A paginator over a non-empty list of embeds, built with
    [example_callback] and the length of the list as page count, never
    indexes outside the list: whichever button is pressed after whatever
    presses, the message is edited to show exactly one embed, the one at
    position [page - 1] of the list. *)
Theorem example_callback_stays_in_list (A : Type) (embeds_ : list A)
    (bs : list Paginator.Button) (b : Paginator.Button) :
  embeds_ <> [] ->
  let start :=
    Paginator.__init__ (example_callback embeds_)
                       (Z.of_nat (List.length embeds_)) in
  let p := Paginator.presses start bs in
  let shown :=
    match b with
    | Paginator.Back => snd (Paginator.prev_button p)
    | Paginator.Next => snd (Paginator.next_button p)
    end in
  exists e,
    Paginator.embeds shown = [Some e] /\
    nth_error embeds_
      (Z.to_nat (Paginator.page (Paginator.press p b) - 1)) = Some e.
Proof.
  intros Hne start p shown.
  assert (Hlen : 1 <= Z.of_nat (List.length embeds_))
    by (destruct embeds_; [contradiction | simpl; lia]).
  destruct (presses_settled bs _
              (init_settled (example_callback embeds_) _ Hlen))
    as [Hs Hpages].
  fold start in Hs, Hpages. fold p in Hs, Hpages.
  destruct (press_settled p b Hs) as [[Hb _] Hpb].
  assert (Hcb : Paginator.callback p = example_callback embeds_)
    by (unfold p; rewrite presses_callback; reflexivity).
  rewrite Hpb, Hpages in Hb. simpl Paginator.pages in Hb.
  destruct (list_index_in_range A embeds_
              (Paginator.page (Paginator.press p b) - 1)) as [e [He Hn]];
    [lia|].
  exists e. split; [|exact Hn].
  unfold shown. destruct b; simpl in *; rewrite Hcb;
    unfold example_callback; rewrite He; reflexivity.
Qed.

Lemma example_callback_stays_in_list_witness :
  exists e,
    Paginator.embeds
      (snd (Paginator.next_button
              (Paginator.presses
                 (Paginator.__init__ (example_callback ["a"; "b"]) 2)
                 [Paginator.Next])))
    = [Some e] /\
    nth_error ["a"; "b"] 1 = Some e.
Proof.
  apply (example_callback_stays_in_list string ["a"; "b"] [Paginator.Next]
           Paginator.Next).
  discriminate.
Defined.

Lemma chunks_concat (A : Type) (k : nat) :
  (0 < k)%nat ->
  forall (n : nat) (xs : list A),
    (List.length xs <= n * k)%nat ->
    List.concat (map (fun i => firstn k (skipn (i * k) xs)) (seq 0 n)) = xs.
Proof.
  intros Hk. induction n as [|n IH]; intros xs Hlen.
  - destruct xs; [reflexivity | simpl in Hlen; lia].
  - rewrite <- cons_seq, <- seq_shift, map_cons, map_map. simpl List.concat.
    rewrite (map_ext _ (fun i => firstn k (skipn (i * k) (skipn k xs)))).
    + rewrite IH; [apply firstn_skipn|].
      rewrite length_skipn. simpl in Hlen. lia.
    + intros i. rewrite skipn_skipn. f_equal. f_equal. lia.
Qed.

Lemma slice_page_eq (A : Type) (xs : list A) (limit N : Z) :
  0 < limit -> 1 <= N ->
  StaticPaginator.slice xs ((N - 1) * limit) (N * limit)
  = firstn (Z.to_nat limit) (skipn (Z.to_nat ((N - 1) * limit)) xs).
Proof.
  intros Hl HN. apply nth_error_ext. intros i.
  rewrite slice_page_nth by assumption.
  rewrite nth_error_firstn, nth_error_skipn.
  destruct (Z.of_nat i <? limit) eqn:Hi;
    destruct (Nat.ltb i (Z.to_nat limit)) eqn:Hn; try reflexivity.
  - apply Z.ltb_lt in Hi. apply Nat.ltb_ge in Hn. lia.
  - apply Z.ltb_ge in Hi. apply Nat.ltb_lt in Hn. lia.
Qed.

(** X13.  The pages of a [StaticPaginator] over fewer than [2 ^ 53] lines,
    with a positive line limit below [2 ^ 1075], partition the lines: the
    slices rendered by pages [1 .. pages], put one after the other, are the
    list of lines, with nothing lost, repeated or reordered. *)
Theorem static_pages_partition_lines (lines_ : list string) (line_limit_ : Z)
    (base_embed_ : option StaticPaginator.Embed) :
  0 < line_limit_ < 2 ^ 1075 ->
  Z.of_nat (List.length lines_) < 2 ^ 53 ->
  exists sp,
    StaticPaginator.__init__ lines_ line_limit_ base_embed_ = Ok sp /\
    List.concat
      (map (fun N => StaticPaginator.slice lines_ ((N - 1) * line_limit_)
                                           (N * line_limit_))
           (page_numbers (Paginator.pages (StaticPaginator.view sp))))
    = lines_.
Proof.
  intros Hl Hlen. rewrite static_paginator_init by assumption.
  eexists. split; [reflexivity|].
  cbn zeta. simpl Paginator.pages.
  set (n := exact_ceiling (Z.of_nat (List.length lines_)) line_limit_).
  destruct (exact_ceiling_bounds (Z.of_nat (List.length lines_)) line_limit_
              ltac:(lia)) as [Hup Hlow]. fold n in Hup, Hlow.
  assert (Hn : 0 <= n) by nia.
  unfold page_numbers. rewrite <- seq_shift, !map_map.
  transitivity
    (List.concat
       (map (fun i => firstn (Z.to_nat line_limit_)
                             (skipn (i * Z.to_nat line_limit_) lines_))
            (seq 0 (Z.to_nat n))));
    [|apply chunks_concat; nia].
  f_equal. apply map_ext. intros i.
  rewrite slice_page_eq by lia.
  f_equal. f_equal. nia.
Qed.

Lemma static_pages_partition_lines_witness :
  exists sp,
    StaticPaginator.__init__ ["a"; "b"; "c"] 2 None = Ok sp /\
    List.concat
      (map (fun N => StaticPaginator.slice ["a"; "b"; "c"] ((N - 1) * 2)
                                           (N * 2))
           (page_numbers (Paginator.pages (StaticPaginator.view sp))))
    = ["a"; "b"; "c"].
Proof.
  apply (static_pages_partition_lines ["a"; "b"; "c"] 2 None).
  - split; reflexivity.
  - reflexivity.
Defined.

(** X14.  In a [StaticPaginator] over fewer than [2 ^ 53] lines, with a
    positive line limit below [2 ^ 1075], no page is empty and none exceeds
    the line limit: every page before the last renders exactly [line_limit]
    lines, and the last one renders the lines that remain, at least one; a
    page number beyond the page count renders no line. *)
Theorem static_page_sizes (lines_ : list string) (line_limit_ : Z)
    (base_embed_ : option StaticPaginator.Embed) (N : Z) :
  0 < line_limit_ < 2 ^ 1075 ->
  Z.of_nat (List.length lines_) < 2 ^ 53 ->
  exists sp,
    StaticPaginator.__init__ lines_ line_limit_ base_embed_ = Ok sp /\
    let n := Paginator.pages (StaticPaginator.view sp) in
    let shown := StaticPaginator.slice lines_ ((N - 1) * line_limit_)
                                       (N * line_limit_) in
    (1 <= N < n -> Z.of_nat (List.length shown) = line_limit_) /\
    (1 <= N /\ N = n ->
     Z.of_nat (List.length shown)
     = Z.of_nat (List.length lines_) - (n - 1) * line_limit_ /\
     1 <= Z.of_nat (List.length shown) <= line_limit_) /\
    (n < N -> shown = []).
Proof.
  intros Hl Hlen. rewrite static_paginator_init by assumption.
  eexists. split; [reflexivity|].
  cbn zeta. simpl Paginator.pages.
  set (n := exact_ceiling (Z.of_nat (List.length lines_)) line_limit_).
  destruct (exact_ceiling_bounds (Z.of_nat (List.length lines_)) line_limit_
              ltac:(lia)) as [Hup Hlow]. fold n in Hup, Hlow.
  assert (Hn : 0 <= n) by nia.
  split; [|split].
  - intros HN. rewrite slice_page_eq by lia.
    rewrite length_firstn, length_skipn. nia.
  - intros [HN ->]. rewrite slice_page_eq by lia.
    rewrite length_firstn, length_skipn. nia.
  - intros HN. rewrite slice_page_eq by lia.
    apply length_zero_iff_nil.
    rewrite length_firstn, length_skipn. nia.
Qed.

Lemma static_page_sizes_witness :
  exists sp,
    StaticPaginator.__init__ Example.thirty_two_lines 15 None = Ok sp /\
    Z.of_nat (List.length
                (StaticPaginator.slice Example.thirty_two_lines 15 30))
    = 15.
Proof.
  destruct (static_page_sizes Example.thirty_two_lines 15 None 2)
    as [sp [Hsp [H _]]].
  - split; reflexivity.
  - reflexivity.
  - exists sp. split; [exact Hsp|].
    apply H. vm_compute in Hsp. injection Hsp as <-. simpl. lia.
Defined.

(** ** The nested-key merge of the settings update *)

Lemma lookup_dict_set_same (d : dict) (k : string) (v : value) :
  lookup k (dict_set d k v) = Some v.
Proof.
  induction d as [|[k' v'] d IH]; simpl.
  - rewrite String.eqb_refl. reflexivity.
  - destruct (k =? k')%string eqn:E; simpl.
    + rewrite String.eqb_refl. reflexivity.
    + rewrite E. exact IH.
Qed.

Lemma lookup_dict_set_other (d : dict) (k k0 : string) (v : value) :
  k0 <> k -> lookup k0 (dict_set d k v) = lookup k0 d.
Proof.
  intros Hne. induction d as [|[k' v'] d IH]; simpl.
  - apply String.eqb_neq in Hne. rewrite Hne. reflexivity.
  - destruct (k =? k')%string eqn:E; simpl.
    + apply String.eqb_eq in E. subst k'.
      apply String.eqb_neq in Hne. rewrite Hne. reflexivity.
    + destruct (k0 =? k')%string; [reflexivity | exact IH].
Qed.

Lemma merged_keeps (items : dict) :
  forall (inner : dict) (k : string),
    (forall v, ~ In (k, v) items) -> lookup k (merged inner items) = lookup k inner.
Proof.
  unfold merged. induction items as [|[k' v'] items IH]; intros inner k H.
  - reflexivity.
  - simpl. rewrite IH.
    + apply lookup_dict_set_other. intros ->. apply (H v'). left. reflexivity.
    + intros v Hin. apply (H v). right. exact Hin.
Qed.

Lemma assign_nested_section (key : string) (items : dict) :
  forall (s inner : dict),
    lookup key s = Some (VDict inner) ->
    exists s',
      assign_nested s key items = Ok s' /\
      lookup key s' = Some (VDict (merged inner items)) /\
      (forall k, k <> key -> lookup k s' = lookup k s).
Proof.
  induction items as [|[k v] items IH]; intros s inner Hs.
  - exists s. repeat split. exact Hs.
  - simpl. rewrite Hs.
    destruct (IH (dict_set s key (VDict (dict_set inner k v)))
                 (dict_set inner k v)) as [s' [Ha [Hl Ho]]].
    + apply lookup_dict_set_same.
    + exists s'. split; [exact Ha|]. split; [exact Hl|].
      intros k0 Hk0. rewrite Ho by exact Hk0.
      apply lookup_dict_set_other. exact Hk0.
Qed.

(** X15.  The merge [settings[key][k] = v] of the settings update: when the
    stored settings have a dict under [key], it succeeds, that section gets
    the body's values, the keys of the section the body does not name keep
    theirs, and every other section is left alone; when the settings have no
    such section, a non-empty dict in the body raises [KeyError]. *)
Theorem assign_nested_merges (s : dict) (key : string) (items : dict) :
  (forall inner, lookup key s = Some (VDict inner) ->
     exists s',
       assign_nested s key items = Ok s' /\
       lookup key s' = Some (VDict (merged inner items)) /\
       (forall k, k <> key -> lookup k s' = lookup k s) /\
       (forall k, (forall v, ~ In (k, v) items) ->
                  lookup k (merged inner items) = lookup k inner)) /\
  (lookup key s = None -> items <> [] ->
   assign_nested s key items = Raise (KeyError key)).
Proof.
  split.
  - intros inner Hs.
    destruct (assign_nested_section key items s inner Hs) as [s' [Ha [Hl Ho]]].
    exists s'. repeat split; try assumption.
    intros k Hk. apply merged_keeps. exact Hk.
  - intros Hs Hne. destruct items as [|[k v] items]; [contradiction|].
    simpl. rewrite Hs. reflexivity.
Qed.

Lemma assign_nested_merges_witness :
  exists s',
    assign_nested Sample.themed_settings "customisation"
                  [("colour", VStr "red")] = Ok s' /\
    lookup "customisation" s'
    = Some (VDict [("prefix", VStr "!"); ("colour", VStr "red")]).
Proof.
  destruct (proj1 (assign_nested_merges Sample.themed_settings "customisation"
                     [("colour", VStr "red")])
                  [("prefix", VStr "!")] eq_refl)
    as [s' [Ha [Hl _]]].
  exists s'. split; [exact Ha | exact Hl].
Defined.

(** ** Mutual guilds *)

Lemma mutual_guilds_loop_ints (parse_int : string -> option Z)
    (info : Guild -> GuildInfo) (bot_user : Z) (cache : list Guild)
    (ids : list Z) :
  forall (rest acc : list value),
    mutual_guilds_loop parse_int info bot_user cache
                       (map VInt ids ++ rest)%list acc
    = mutual_guilds_loop parse_int info bot_user cache rest
        (acc ++ map (guild_summary info) (mutual bot_user cache ids))%list.
Proof.
  induction ids as [|n ids IH]; intros rest acc; simpl.
  - rewrite app_nil_r. reflexivity.
  - destruct (get_guild n cache) as [guild|]; [|apply IH].
    destruct (existsb (Z.eqb bot_user) (guild_members guild)).
    + rewrite IH. simpl. rewrite <- app_assoc. reflexivity.
    + apply IH.
Qed.

(** X16.  For a request naming guilds by integer ids, [POST_get_mutual_guilds]
    answers with the summaries of exactly those guilds that are in the bot's
    cache and have the bot as a member, in the order of the request; ids of
    unknown guilds are passed over without an error.  One entry that [int()]
    rejects makes the whole request fail with that exception, whatever stood
    before it. *)
Theorem mutual_guilds_answer (parse_int : string -> option Z)
    (info : Guild -> GuildInfo) (bot_user : Z) (bot : Bot)
    (json_data : value) (ids : list Z) :
  ids <> [] ->
  (get json_data "guilds" = Ok (VList (map VInt ids)) ->
   POST_get_mutual_guilds parse_int info bot_user json_data bot
   = (Ok (AnswerJson
            (VDict [("guilds",
                     VList (map (guild_summary info)
                                (mutual bot_user (guilds bot) ids)))])),
      bot)) /\
  (forall g, In g (mutual bot_user (guilds bot) ids) <->
             In (guild_id g) ids /\
             get_guild (guild_id g) (guilds bot) = Some g /\
             existsb (Z.eqb bot_user) (guild_members g) = true) /\
  (forall bad rest e,
     py_int parse_int bad = Raise e ->
     get json_data "guilds" = Ok (VList (map VInt ids ++ bad :: rest)) ->
     POST_get_mutual_guilds parse_int info bot_user json_data bot
     = (Raise e, bot)).
Proof.
  intros Hne. split; [|split].
  - intros Hg. unfold POST_get_mutual_guilds. run_monad. rewrite Hg.
    assert (Ht : truthy (VList (map VInt ids)) = true)
      by (destruct ids; [contradiction | reflexivity]).
    rewrite Ht. cbn [negb iterate].
    rewrite <- (app_nil_r (map VInt ids)), mutual_guilds_loop_ints.
    reflexivity.
  - intros g. unfold mutual. rewrite in_flat_map. split.
    + intros [n [Hin Hg]].
      destruct (get_guild n (guilds bot)) as [guild|] eqn:Hc; [|contradiction].
      destruct (existsb (Z.eqb bot_user) (guild_members guild)) eqn:Hm;
        [|contradiction].
      destruct Hg as [<-|[]].
      assert (Hid : guild_id guild = n).
      { unfold get_guild in Hc. apply find_some in Hc.
        destruct Hc as [_ Hc]. apply Z.eqb_eq in Hc. exact Hc. }
      rewrite Hid. auto.
    + intros [Hin [Hc Hm]]. exists (guild_id g). split; [exact Hin|].
      rewrite Hc, Hm. left. reflexivity.
  - intros bad rest e Hbad Hg. unfold POST_get_mutual_guilds. run_monad.
    rewrite Hg.
    assert (Ht : truthy (VList (map VInt ids ++ bad :: rest)) = true)
      by (destruct ids; [contradiction | reflexivity]).
    rewrite Ht. cbn [negb iterate].
    rewrite mutual_guilds_loop_ints. simpl. rewrite Hbad. reflexivity.
Qed.

Lemma mutual_guilds_answer_witness :
  POST_get_mutual_guilds (fun _ => None) (fun _ => mkGuildInfo "HQ" None) 501
    (VDict [("guilds", VList [VInt 5; VInt 77])]) Example.bot
  = (Ok (AnswerJson
           (VDict [("guilds",
                    VList [VDict [("id", VStr "77"); ("name", VStr "HQ");
                                  ("icon_url", VStr default_icon)]])])),
     Example.bot).
Proof.
  apply (proj1 (mutual_guilds_answer (fun _ => None)
                  (fun _ => mkGuildInfo "HQ" None) 501 Example.bot
                  (VDict [("guilds", VList [VInt 5; VInt 77])]) [5; 77]
                  ltac:(discriminate))).
  reflexivity.
Defined.

(** ** The expiry instant across the handlers *)

(** X17.  At the instant when the clock equals a stored token's
    [expires_at], the handlers that test [now > expires_at] still serve the
    token while those that go through [validate_authorization] turn it away:
    the link-string query answers with the token, and both linking and
    duty-off answer 401 (unless the token is the static secret, which duty-off
    lets through). *)
Theorem expiry_instant_splits_handlers (cfg : Config) (bot : Bot)
    (authorization : option string) (tok : TokenDoc) (now : Z) :
  header_missing authorization = false ->
  find_token (header authorization) (api_tokens bot) = Some tok ->
  now = expires_at tok ->
  header authorization <> API_STATIC_TOKEN cfg ->
  GET_get_link_string authorization now bot = (Ok tok, bot) /\
  (forall x_link_string,
     POST_authorize_token cfg authorization x_link_string now bot
     = (Raise (HTTPException 401 "Invalid or expired authorization."), bot)) /\
  (forall json,
     POST_duty_off cfg authorization json now bot
     = (Raise (HTTPException 401 "Invalid or expired authorization."), bot)).
Proof.
  intros Hh Hf Hnow Hs.
  assert (Hlt : (now <? expires_at tok) = false) by (apply Z.ltb_ge; lia).
  apply String.eqb_neq in Hs.
  split; [|split].
  - rewrite GET_get_link_string_run, Hf by assumption.
    rewrite gtb_false_of_le by lia. reflexivity.
  - intros x. unfold POST_authorize_token. run_monad.
    rewrite Hh, validate_authorization_run, Hf, Hlt. reflexivity.
  - intros json. unfold POST_duty_off. run_monad.
    rewrite Hh, validate_authorization_run, Hf, Hlt, Hs. reflexivity.
Qed.

Lemma expiry_instant_splits_handlers_witness :
  GET_get_link_string (Some "tok-abc") 2593000 Example.bot
  = (Ok Example.tok, Example.bot) /\
  POST_duty_off Example.cfg (Some "tok-abc") Example.duty_off_body 2593000
                Example.bot
  = (Raise (HTTPException 401 "Invalid or expired authorization."),
     Example.bot).
Proof.
  destruct (expiry_instant_splits_handlers Example.cfg Example.bot
              (Some "tok-abc") Example.tok 2593000)
    as [H1 [_ H3]]; try reflexivity.
  - simpl. discriminate.
  - split; [exact H1 | apply H3].
Defined.
